(** * SpiceBazaar storefront: cart store, checkout initiator and payment
      status reconciler of [frontend/src/App.js]

    The development embeds the client logic of [App.js] and states the
    properties of the storefront specification over it.

    Conventions of the embedding.
    - A React state cell updated with [setX(prev => f prev)] is the pure
      function [f] on the value of the cell.
    - A quantity is an integer count ([Z]) in the module [Cart]. The
      module [JsCart] has the same functions with the quantity a number,
      as the source has it; the two are proved to agree as long as the
      integers involved are within [Js.MAX_SAFE_INTEGER] (2^53 - 1), where
      [+] and [<=] on numbers are [Z.add] and [Z.leb]. Beyond it the
      addition of numbers rounds, and every property of [Cart] that adds
      quantities is stated with that bound.
    - A price is a JavaScript number, that is an IEEE-754 binary64 value
      ([float], the primitive floats of the kernel), and arithmetic on
      prices is the arithmetic of [PrimFloat].
    - An asynchronous function that awaits the network takes the behaviour
      of the remote service as an argument and returns the new state of the
      component together with the effects it performed, in order. *)

From Stdlib Require Import List Bool Arith ZArith Lia String Floats QArith.
From Stdlib Require Import Permutation.
Import ListNotations.

Local Open Scope Z_scope.
Local Open Scope string_scope.
Local Open Scope list_scope.

(** ** JavaScript values *)

Module Js.

(** [!s] on a string is true exactly for the empty string. *)
Definition falsy (s : string) : bool := (s =? "")%string.

(** The number denoting an integer: the nearest binary64 value
    (ties to even), the integer itself below 2^53. *)
Definition number_of_Z (z : Z) : float :=
  SF2Prim (binary_normalize prec emax z 0 false).

(** The rational value of a finite number; [None] for NaN and the
    infinities. *)
Definition value (x : float) : option Q :=
  match Prim2SF x with
  | S754_zero _ => Some 0%Q
  | S754_finite s m e =>
      let mag := (inject_Z (Zpos m) * Qpower 2 e)%Q in
      Some (if s then Qopp mag else mag)
  | S754_infinity _ | S754_nan => None
  end.

(** [Number.MAX_SAFE_INTEGER]: up to it the integers are numbers and, as
    shown below, their sums are computed exactly. *)
Definition MAX_SAFE_INTEGER : Z := 2 ^ 53 - 1.

(** The exponent and the 53-bit mantissa of the number denoting a positive
    integer not above [MAX_SAFE_INTEGER]. *)
Definition canon_e (c : positive) : Z := Zpos (digits2_pos c) - 53.

Definition canon_m (c : positive) : positive :=
  Z.to_pos (Zpos c * 2 ^ (- canon_e c)).

End Js.

(** ** Products of the catalog, as the cart reads them *)

Module Product.

Record t : Type := mk
  { id : string;
    name : string;
    image_url : string;
    price : float }.

End Product.

(** ** Cart store ([CartProvider]) *)

Module Cart.

(** A line item, the object literal built by [addToCart]. *)
Record CartItem : Type := mkItem
  { product_id : string;
    product_name : string;
    product_image : string;
    quantity : Z;
    price : float }.

(** [{ ...item, quantity: q }] *)
Definition with_quantity (item : CartItem) (q : Z) : CartItem :=
  {| product_id := product_id item;
     product_name := product_name item;
     product_image := product_image item;
     quantity := q;
     price := price item |}.

(** [addToCart(product, quantity)], the updater given to [setCartItems],
    on integer quantities: [+] is the addition of integers, which is the
    addition of numbers of [JsCart.addToCart] while the sum is within
    [Js.MAX_SAFE_INTEGER]. *)
Definition addToCart (product : Product.t) (quantity0 : Z)
    (prev : list CartItem) : list CartItem :=
  match find (fun item => product_id item =? Product.id product) prev with
  | Some _existing =>
      map (fun item =>
             if product_id item =? Product.id product
             then with_quantity item (quantity item + quantity0)
             else item) prev
  | None =>
      prev ++ [ {| product_id := Product.id product;
                   product_name := Product.name product;
                   product_image := Product.image_url product;
                   quantity := quantity0;
                   price := Product.price product |} ]
  end.

(** The default of the second parameter: [quantity = 1]. *)
Definition addToCart_default (product : Product.t)
    : list CartItem -> list CartItem :=
  addToCart product 1.

(** [removeFromCart(productId)] *)
Definition removeFromCart (productId : string) (prev : list CartItem)
    : list CartItem :=
  filter (fun item => negb (product_id item =? productId)) prev.

(** [updateQuantity(productId, quantity)] *)
Definition updateQuantity (productId : string) (quantity0 : Z)
    (prev : list CartItem) : list CartItem :=
  if (quantity0 <=? 0)%Z then removeFromCart productId prev
  else map (fun item =>
              if product_id item =? productId
              then with_quantity item quantity0
              else item) prev.

(** [clearCart()] *)
Definition clearCart (_ : list CartItem) : list CartItem := [].

(** [getTotalItems()]: [reduce] from 0, left to right, on integer
    quantities; it is [JsCart.getTotalItems] while the total is within
    [Js.MAX_SAFE_INTEGER]. *)
Definition getTotalItems (cartItems : list CartItem) : Z :=
  fold_left (fun total item => total + quantity item) cartItems 0.

(** [getTotalPrice()]: [reduce] from 0, left to right, on numbers. *)
Definition getTotalPrice (cartItems : list CartItem) : float :=
  fold_left
    (fun total item =>
       (total + (price item * Js.number_of_Z (quantity item)))%float)
    cartItems 0%float.

(** The carts the store can hold: the initial state [useState([])] and
    whatever the four mutators make of a cart the store holds. *)
Inductive reachable : list CartItem -> Prop :=
| reach_init : reachable []
| reach_add product q cart :
    reachable cart -> reachable (addToCart product q cart)
| reach_remove productId cart :
    reachable cart -> reachable (removeFromCart productId cart)
| reach_update productId q cart :
    reachable cart -> reachable (updateQuantity productId q cart)
| reach_clear cart :
    reachable cart -> reachable (clearCart cart).

(** The line items of a product, and the quantity the cart records for
    it (0 when it has none). *)
Definition lines (productId : string) (cart : list CartItem) : list CartItem :=
  filter (fun item => product_id item =? productId) cart.

Definition quantity_of (productId : string) (cart : list CartItem) : Z :=
  match find (fun item => product_id item =? productId) cart with
  | Some item => quantity item
  | None => 0
  end.

(** A run of [addToCart] calls for one product, in order. *)
Definition add_all (product : Product.t) (qs : list Z)
    (cart : list CartItem) : list CartItem :=
  fold_left (fun c q => addToCart product q c) qs cart.

Definition sum (qs : list Z) : Z := fold_right Z.add 0 qs.

(** The exact total of a cart: the sum over the line items of the
    rational value of the price times the quantity. *)
Fixpoint exact_total (cartItems : list CartItem) : option Q :=
  match cartItems with
  | [] => Some 0%Q
  | item :: rest =>
      match Js.value (price item), exact_total rest with
      | Some p, Some t => Some (p * inject_Z (quantity item) + t)%Q
      | _, _ => None
      end
  end.

(** The number a price tag of [c] cents denotes: [c / 100]. *)
Definition cents (c : Z) : float := (Js.number_of_Z c / 100)%float.

(** The total is exact when its value is the exact total. *)
Definition exact (cartItems : list CartItem) : bool :=
  match Js.value (getTotalPrice cartItems), exact_total cartItems with
  | Some v, Some t => Qeq_bool v t
  | _, _ => false
  end.

(** The product identifiers of a cart, in cart order. *)
Definition ids (cart : list CartItem) : list string := map product_id cart.

(** Three products of the shop, priced 0.10, 0.20 and 0.30, and one
    priced 1.10. *)
Definition chili : Product.t :=
  Product.mk "chili" "Chili Powder" "/img/chili.jpg" (cents 10).
Definition turmeric : Product.t :=
  Product.mk "turmeric" "Turmeric Powder" "/img/turmeric.jpg" (cents 20).
Definition cumin : Product.t :=
  Product.mk "cumin" "Cumin Seeds" "/img/cumin.jpg" (cents 30).
Definition masala : Product.t :=
  Product.mk "masala" "Garam Masala" "/img/masala.jpg" (cents 110).

(** The products of the scenario of the specification: A at 5.00 and B
    at 3.50. *)
Definition productA : Product.t := Product.mk "A" "A" "" (cents 500).
Definition productB : Product.t := Product.mk "B" "B" "" (cents 350).

End Cart.

(** ** The cart store on numbers

    The same functions with every quantity a JavaScript number, as the
    source has them: [+] is the addition of binary64 numbers and
    [quantity <= 0] their comparison. The integer model [Cart] above is
    this one on the carts whose quantities are integers that stay within
    [Js.MAX_SAFE_INTEGER], as the theorems on [of_cart] below show. *)

Module JsCart.

Record CartItem : Type := mkItem
  { product_id : string;
    product_name : string;
    product_image : string;
    quantity : float;
    price : float }.

(** [{ ...item, quantity: q }] *)
Definition with_quantity (item : CartItem) (q : float) : CartItem :=
  {| product_id := product_id item;
     product_name := product_name item;
     product_image := product_image item;
     quantity := q;
     price := price item |}.

(** [addToCart(product, quantity)] *)
Definition addToCart (product : Product.t) (quantity0 : float)
    (prev : list CartItem) : list CartItem :=
  match find (fun item => product_id item =? Product.id product) prev with
  | Some _existing =>
      map (fun item =>
             if product_id item =? Product.id product
             then with_quantity item (quantity item + quantity0)%float
             else item) prev
  | None =>
      prev ++ [ {| product_id := Product.id product;
                   product_name := Product.name product;
                   product_image := Product.image_url product;
                   quantity := quantity0;
                   price := Product.price product |} ]
  end.

(** [removeFromCart(productId)] *)
Definition removeFromCart (productId : string) (prev : list CartItem)
    : list CartItem :=
  filter (fun item => negb (product_id item =? productId)) prev.

(** [updateQuantity(productId, quantity)] *)
Definition updateQuantity (productId : string) (quantity0 : float)
    (prev : list CartItem) : list CartItem :=
  if (quantity0 <=? 0)%float then removeFromCart productId prev
  else map (fun item =>
              if product_id item =? productId
              then with_quantity item quantity0
              else item) prev.

(** [getTotalItems()] *)
Definition getTotalItems (cartItems : list CartItem) : float :=
  fold_left (fun total item => (total + quantity item)%float) cartItems
    0%float.

(** [getTotalPrice()] *)
Definition getTotalPrice (cartItems : list CartItem) : float :=
  fold_left (fun total item => (total + (price item * quantity item))%float)
    cartItems 0%float.

(** A run of [addToCart] calls for one product, in order. *)
Definition add_all (product : Product.t) (qs : list float)
    (cart : list CartItem) : list CartItem :=
  fold_left (fun c q => addToCart product q c) qs cart.

(** The cart on numbers that an integer cart stands for. *)
Definition of_item (item : Cart.CartItem) : CartItem :=
  {| product_id := Cart.product_id item;
     product_name := Cart.product_name item;
     product_image := Cart.product_image item;
     quantity := Js.number_of_Z (Cart.quantity item);
     price := Cart.price item |}.

Definition of_cart (cart : list Cart.CartItem) : list CartItem :=
  map of_item cart.

(** Every quantity is a non-negative integer. *)
Definition counts (cart : list Cart.CartItem) : Prop :=
  forall item, In item cart -> 0 <= Cart.quantity item.

End JsCart.

(** ** Checkout initiator ([CartSidebar.handleCheckout]) *)

Module Checkout.

(** One entry of [checkoutItems]. *)
Record CheckoutItem : Type := mkCheckoutItem
  { product_id : string;
    quantity : Z;
    price : float }.

(** The body of [POST /checkout/session]. *)
Record CheckoutRequest : Type := mkRequest
  { items : list CheckoutItem;
    customer_email : string;
    origin_url : string }.

(** What [await axios.post(...)] does: it resolves with a response whose
    [data] is an object, where [data.url] is a string or is missing; it
    resolves with a response whose [data] is [null] or [undefined], on
    which reading [data.url] throws; or it throws itself. *)
Inductive PostOutcome : Type :=
| Resolved (url : option string)
| ResolvedWithoutData
| Rejected.

Definition SessionService : Type := CheckoutRequest -> PostOutcome.

(** What the handler does to the world, in order. *)
Inductive Effect : Type :=
| SetIsCheckingOut (b : bool)
| Post (body : CheckoutRequest)
| SetLocationHref (url : string)
| ConsoleError (msg : string)
| Alert (msg : string).

(** The state the handler closes over: the cart context and the two
    state cells of the sidebar. *)
Record State : Type := mkState
  { cartItems : list Cart.CartItem;
    cartOpen : bool;
    customerEmail : string;
    isCheckingOut : bool }.

Definition setIsCheckingOut (b : bool) (st : State) : State :=
  {| cartItems := cartItems st;
     cartOpen := cartOpen st;
     customerEmail := customerEmail st;
     isCheckingOut := b |}.

Definition checkoutItems (cart : list Cart.CartItem) : list CheckoutItem :=
  map (fun item =>
         {| product_id := Cart.product_id item;
            quantity := Cart.quantity item;
            price := Cart.price item |}) cart.

(** [handleCheckout()], with [window.location.origin] and the behaviour of
    the session service as arguments. *)
Definition handleCheckout (origin : string) (service : SessionService)
    (st : State) : State * list Effect :=
  if Js.falsy (customerEmail st) || (List.length (cartItems st) =? 0)%nat
  then (st, [])
  else
    let body := {| items := checkoutItems (cartItems st);
                   customer_email := customerEmail st;
                   origin_url := origin |} in
    let tried :=
      match service body with
      | Resolved (Some url) =>
          if Js.falsy url then [] else [SetLocationHref url]
      | Resolved None => []
      | ResolvedWithoutData | Rejected =>
          [ConsoleError "Checkout failed:";
           Alert "Checkout failed. Please try again."]
      end in
    (setIsCheckingOut false (setIsCheckingOut true st),
     [SetIsCheckingOut true; Post body] ++ tried ++ [SetIsCheckingOut false]).

Definition is_post (e : Effect) : bool :=
  match e with Post _ => true | _ => false end.

(** A sidebar with two chili in the cart and the given email typed in. *)
Definition sidebar (email : string) : State :=
  {| cartItems := Cart.addToCart Cart.chili 2 [];
     cartOpen := true;
     customerEmail := email;
     isCheckingOut := false |}.

End Checkout.

(** ** Payment status reconciler ([CheckoutSuccess]) *)

Module Reconciler.

(** The values [paymentStatus] takes. *)
Inductive PaymentStatus : Type :=
| checking | success | expired | error | timeout.

Definition status_eqb (a b : PaymentStatus) : bool :=
  match a, b with
  | checking, checking | success, success | expired, expired
  | error, error | timeout, timeout => true
  | _, _ => false
  end.

Definition terminal (s : PaymentStatus) : bool := negb (status_eqb s checking).

(** [response.data] of [GET /checkout/status/{session_id}]. *)
Record StatusData : Type := mkData
  { status : string;
    payment_status : string }.

(** What [await axios.get(...)] does: it resolves, or it throws. *)
Inductive Reply : Type :=
| Response (data : StatusData)
| Failure.

(** The session service, seen from one success page: the reply to the
    [n]-th status query the page sends about a session (from 0). *)
Definition SessionService : Type := string -> nat -> Reply.

Inductive Event : Type :=
| SetSessionId (sessionId : string)
| GetStatus (sessionId : string)
| SetPaymentStatus (s : PaymentStatus)
| SetTimeout (ms : Z) (sessionId : string) (attempts : nat)
| ConsoleError (msg : string).

(** A callback waiting in [setTimeout]:
    [() => pollPaymentStatus(sessionId, attempts)] after [delay] ms. *)
Record Timer : Type := mkTimer
  { delay : Z;
    timer_sessionId : string;
    timer_attempts : nat }.

(** The two state cells of the page, the pending callback, the number of
    status queries sent so far, and what has happened so far. *)
Record State : Type := mkState
  { paymentStatus : PaymentStatus;
    sessionId : option string;
    timer : option Timer;
    sent : nat;
    log : list Event }.

Definition initial : State :=
  {| paymentStatus := checking; sessionId := None; timer := None;
     sent := 0; log := [] |}.

Definition setPaymentStatus (s : PaymentStatus) (st : State) : State :=
  {| paymentStatus := s; sessionId := sessionId st; timer := timer st;
     sent := sent st; log := log st ++ [SetPaymentStatus s] |}.

Definition setSessionId (sid : string) (st : State) : State :=
  {| paymentStatus := paymentStatus st; sessionId := Some sid;
     timer := timer st; sent := sent st;
     log := log st ++ [SetSessionId sid] |}.

Definition setTimeout (sid : string) (attempts : nat) (ms : Z) (st : State)
    : State :=
  {| paymentStatus := paymentStatus st; sessionId := sessionId st;
     timer := Some {| delay := ms; timer_sessionId := sid;
                      timer_attempts := attempts |};
     sent := sent st; log := log st ++ [SetTimeout ms sid attempts] |}.

Definition consoleError (msg : string) (st : State) : State :=
  {| paymentStatus := paymentStatus st; sessionId := sessionId st;
     timer := timer st; sent := sent st;
     log := log st ++ [ConsoleError msg] |}.

(** Sending the query: it is logged and counted. *)
Definition axios_get (sid : string) (st : State) : State :=
  {| paymentStatus := paymentStatus st; sessionId := sessionId st;
     timer := timer st; sent := S (sent st);
     log := log st ++ [GetStatus sid] |}.

Definition maxAttempts : nat := 5.
Definition pollInterval : Z := 2000.

(** One call [pollPaymentStatus(sessionId, attempts)]. *)
Definition pollPaymentStatus (svc : SessionService) (sid : string)
    (attempts : nat) (st : State) : State :=
  if (maxAttempts <=? attempts)%nat then setPaymentStatus timeout st
  else
    let st1 := axios_get sid st in
    match svc sid (sent st) with
    | Response data =>
        if payment_status data =? "paid" then setPaymentStatus success st1
        else if status data =? "expired" then setPaymentStatus expired st1
        else setTimeout sid (attempts + 1) pollInterval st1
    | Failure =>
        setPaymentStatus error
          (consoleError "Error checking payment status:" st1)
    end.

(** [new URLSearchParams(location.search)] as the list of its pairs, and
    its [get]: the first value of the name, [null] when there is none. *)
Definition URLSearchParams : Type := list (string * string).

Definition get (name : string) (params : URLSearchParams) : option string :=
  match find (fun kv => fst kv =? name) params with
  | Some kv => Some (snd kv)
  | None => None
  end.

(** The effect of the page, run on a location with these parameters: on
    the initial state when the page is mounted, on the current state when
    [location] changes afterwards. *)
Definition useEffect (svc : SessionService) (urlParams : URLSearchParams)
    (st : State) : State :=
  match get "session_id" urlParams with
  | Some sessionIdParam =>
      if Js.falsy sessionIdParam then st
      else pollPaymentStatus svc sessionIdParam 0
             (setSessionId sessionIdParam st)
  | None => st
  end.

(** The page right after it is mounted on a location. *)
Definition mount (svc : SessionService) (urlParams : URLSearchParams) : State :=
  useEffect svc urlParams initial.

(** The pending callback runs: the transition of a polling chain, that is
    of what one run of the effect starts. A mounted page has one other
    transition, a change of [location] that keeps the route: it runs
    [useEffect] again, on the state the page is in. *)
Definition clearTimer (st : State) : State :=
  {| paymentStatus := paymentStatus st; sessionId := sessionId st;
     timer := None; sent := sent st; log := log st |}.

Definition fire (svc : SessionService) (st : State) : option State :=
  match timer st with
  | Some t =>
      Some (pollPaymentStatus svc (timer_sessionId t) (timer_attempts t)
              (clearTimer st))
  | None => None
  end.

Definition step (svc : SessionService) (st st' : State) : Prop :=
  fire svc st = Some st'.

(** The states a polling chain goes through after [st]. *)
Inductive steps (svc : SessionService) : State -> State -> Prop :=
| steps_refl st : steps svc st st
| steps_next st st' st'' :
    step svc st st' -> steps svc st' st'' -> steps svc st st''.

(** The page after at most [fuel] callbacks have run. *)
Fixpoint run (fuel : nat) (svc : SessionService) (st : State) : State :=
  match fuel with
  | O => st
  | S fuel' =>
      match fire svc st with
      | Some st' => run fuel' svc st'
      | None => st
      end
  end.

(** What the page shows. *)
Inductive Element : Type :=
| Spinner
| Icon (color : string)
| Heading (text : string)
| Paragraph (text : string)
| Button (label : string) (href : string).

(** The body of the page: three blocks, each shown for one status. *)
Definition render (s : PaymentStatus) : list Element :=
  (if status_eqb s checking
   then [Spinner; Heading "Processing Payment...";
         Paragraph "Please wait while we confirm your payment."]
   else [])
  ++ (if status_eqb s success
      then [Icon "green"; Heading "Payment Successful!";
            Paragraph "Thank you for your purchase. Your spices are on their way!";
            Button "Continue Shopping" "/"]
      else [])
  ++ (if status_eqb s error
      then [Icon "red"; Heading "Payment Error";
            Paragraph "There was an error processing your payment. Please try again.";
            Button "Back to Shop" "/"]
      else []).

Definition is_message (e : Element) : bool :=
  match e with Heading _ | Paragraph _ => true | _ => false end.

Definition is_action (e : Element) : bool :=
  match e with Button _ _ => true | _ => false end.

(** A view reports an outcome when it has a text and an action. *)
Definition reports (view : list Element) : bool :=
  existsb is_message view && existsb is_action view.

(** A callback is pending only while the page is still checking. *)
Definition consistent (st : State) : Prop :=
  timer st = None \/ paymentStatus st = checking.

Definition is_query (e : Event) : bool :=
  match e with GetStatus _ => true | _ => false end.

Definition queries (l : list Event) : nat := List.length (filter is_query l).

(** A service that answers every query with an open, unpaid session:
    neither [payment_status = "paid"] nor [status = "expired"]. *)
Definition pending (r : Reply) : bool :=
  match r with
  | Response data =>
      negb (payment_status data =? "paid") && negb (status data =? "expired")
  | Failure => false
  end.

(** A service whose sessions stay open and unpaid, one whose [k]-th
    reply is a transport failure, and the parameters of a return URL. *)
Definition open_unpaid : Reply := Response (mkData "open" "unpaid").

Definition always_open : SessionService := fun _ _ => open_unpaid.

Definition fails_at (k : nat) : SessionService :=
  fun _ n => if (n =? k)%nat then Failure else open_unpaid.

Definition return_url : URLSearchParams := [("session_id", "cs_test_a1b2c3")].

End Reconciler.

(** ** Application start ([App.initializeApp]) *)

Module App.

Inductive Effect : Type :=
| PostInitProducts
| ConsoleError (msg : string).

(** [initializeApp()]: the new value of [initialized] and the effects,
    given whether the seeding request resolved. *)
Definition initializeApp (resolved : bool) : bool * list Effect :=
  if resolved then (true, [PostInitProducts])
  else (true, [PostInitProducts; ConsoleError "Failed to initialize app:"]).

End App.

(** ** Header: the badge on the cart button *)

Module Header.

(** [{getTotalItems() > 0 && <span>{getTotalItems()}</span>}]: the number
    the badge shows, [None] when no badge is rendered. *)
Definition badge (cartItems : list Cart.CartItem) : option Z :=
  if (0 <? Cart.getTotalItems cartItems)%Z
  then Some (Cart.getTotalItems cartItems)
  else None.

End Header.

(** ** Cart sidebar: the handlers of a row and the checkout button *)

Module CartSidebar.

(** The [-] button of the row of [item]:
    [updateQuantity(item.product_id, item.quantity - 1)]. *)
Definition decrement (item : Cart.CartItem) (prev : list Cart.CartItem)
    : list Cart.CartItem :=
  Cart.updateQuantity (Cart.product_id item) (Cart.quantity item - 1) prev.

(** The [+] button: [updateQuantity(item.product_id, item.quantity + 1)]. *)
Definition increment (item : Cart.CartItem) (prev : list Cart.CartItem)
    : list Cart.CartItem :=
  Cart.updateQuantity (Cart.product_id item) (Cart.quantity item + 1) prev.

(** The bin button: [removeFromCart(item.product_id)]. *)
Definition remove (item : Cart.CartItem) (prev : list Cart.CartItem)
    : list Cart.CartItem :=
  Cart.removeFromCart (Cart.product_id item) prev.

(** The [disabled] attribute of the checkout button:
    [!customerEmail || cartItems.length === 0 || isCheckingOut]. *)
Definition checkoutDisabled (st : Checkout.State) : bool :=
  Js.falsy (Checkout.customerEmail st)
  || (List.length (Checkout.cartItems st) =? 0)%nat
  || Checkout.isCheckingOut st.

End CartSidebar.

(** ** The carts a shopper can build *)

Module Shopper.

(** The calls the pages make: [addToCart(product)] from the product cards
    (the quantity defaults to 1), the three buttons of a row of the sidebar
    on an item of the cart, and [clearCart]. *)
Inductive shopping : list Cart.CartItem -> Prop :=
| shop_start : shopping []
| shop_add product cart :
    shopping cart -> shopping (Cart.addToCart_default product cart)
| shop_minus item cart :
    shopping cart -> In item cart ->
    shopping (CartSidebar.decrement item cart)
| shop_plus item cart :
    shopping cart -> In item cart ->
    shopping (CartSidebar.increment item cart)
| shop_remove item cart :
    shopping cart -> In item cart ->
    shopping (CartSidebar.remove item cart)
| shop_clear cart :
    shopping cart -> shopping (Cart.clearCart cart).

(** Every line item has a quantity of at least 1. *)
Definition positive (cart : list Cart.CartItem) : Prop :=
  forall item, In item cart -> 1 <= Cart.quantity item.

End Shopper.

(** ** Vocabulary for the runs of the reconciler *)

Module Polling.

Import Reconciler.

(** The status a reply that ends the polling leads to: the branches of
    [pollPaymentStatus] in their order. *)
Definition outcome (r : Reply) : PaymentStatus :=
  match r with
  | Failure => error
  | Response data =>
      if payment_status data =? "paid" then success
      else if status data =? "expired" then expired
      else checking
  end.

(** An event of a page polling the session [sid]: queries and callbacks
    are for [sid], callbacks wait [pollInterval] and carry an attempt
    number from 1 to [maxAttempts]. *)
Definition event_ok (sid : string) (e : Event) : bool :=
  match e with
  | SetSessionId s => s =? sid
  | GetStatus s => s =? sid
  | SetTimeout ms s attempts =>
      (ms =? pollInterval)%Z && (s =? sid)
      && (1 <=? attempts)%nat && (attempts <=? maxAttempts)%nat
  | SetPaymentStatus _ | ConsoleError _ => true
  end.

(** The bookkeeping of the polling chain that a run of the effect in the
    state [st0] starts for the session [sid]: the log is the log of [st0]
    followed by events of the chain, the queries sent since [st0] are the
    queries of these events and are at most [maxAttempts]; a pending
    callback carries their number and the status is still the one of
    [st0]; with no callback pending the chain has set a terminal status. *)
Definition chain (st0 : State) (sid : string) (st : State) : Prop :=
  exists l,
    log st = log st0 ++ l /\
    forallb (event_ok sid) l = true /\
    sent st = (sent st0 + queries l)%nat /\
    (queries l <= maxAttempts)%nat /\
    match timer st with
    | Some t =>
        t = mkTimer pollInterval sid (queries l) /\
        (1 <= queries l)%nat /\
        paymentStatus st = paymentStatus st0
    | None => terminal (paymentStatus st) = true
    end.

(** What the page shows while it is checking. *)
Definition processing : list Element :=
  [Spinner; Heading "Processing Payment...";
   Paragraph "Please wait while we confirm your payment."].

(** A session whose [k]-th reply says paid, the earlier ones open. *)
Definition paid_at (k : nat) : SessionService :=
  fun _ n =>
    if (n =? k)%nat then Response (mkData "complete" "paid") else open_unpaid.

End Polling.

(** Two numbers are different when their representations are. *)
Ltac float_neq :=
  let H := fresh in
  intros H; apply (f_equal Prim2SF) in H; vm_compute in H; discriminate H.

(** * Numbers and integers

    The sum of two non-negative integers that does not exceed
    [Js.MAX_SAFE_INTEGER] is computed exactly by the addition of numbers,
    and the comparison of such an integer with 0 is the comparison of
    numbers. The proofs go through the specification of binary64
    arithmetic of the Standard Library ([SpecFloat]). *)

Section NumberFacts.

Import Js.

Lemma digits_log2 p : Zpos (digits2_pos p) = Z.log2 (Zpos p) + 1.
Proof.
  induction p as [p IH|p IH|]; simpl digits2_pos; try reflexivity.
  - rewrite Pos2Z.inj_succ, IH.
    change (Zpos p~1) with (2 * Zpos p + 1).
    rewrite Z.log2_succ_double by lia. lia.
  - rewrite Pos2Z.inj_succ, IH.
    change (Zpos p~0) with (2 * Zpos p).
    rewrite Z.log2_double by lia. lia.
Qed.

Lemma digits_shift p p' k :
  0 <= k -> Zpos p' = Zpos p * 2 ^ k ->
  Zpos (digits2_pos p') = Zpos (digits2_pos p) + k.
Proof.
  intros Hk E. rewrite !digits_log2, E, Z.log2_mul_pow2 by lia. lia.
Qed.

Lemma iter_xO_value m k : Zpos (Pos.iter xO m k) = Zpos m * 2 ^ Zpos k.
Proof.
  induction k as [|k IH] using Pos.peano_ind.
  - simpl. lia.
  - rewrite Pos.iter_succ, Pos2Z.inj_succ, Z.pow_succ_r by lia.
    rewrite Pos2Z.inj_xO, IH. lia.
Qed.

Lemma iter_pos_iter {A} (f : A -> A) n : forall x, SpecFloat.iter_pos f n x = Pos.iter f x n.
Proof.
  induction n as [n IH|n IH|]; intros x; simpl.
  - rewrite !IH. rewrite <- Pos.iter_swap. rewrite <- Pos.iter_swap. reflexivity.
  - rewrite !IH. reflexivity.
  - reflexivity.
Qed.

Lemma shr_exact k : forall q,
  Pos.iter shr_1 (Build_shr_record (Zpos (Pos.iter xO q k)) false false) k
  = Build_shr_record (Zpos q) false false.
Proof.
  induction k as [|k IH] using Pos.peano_ind; intros q.
  - reflexivity.
  - rewrite Pos.iter_succ_r. rewrite Pos.iter_succ. simpl shr_1. apply IH.
Qed.

Lemma fexp_canonical x e0 :
  -1074 <= e0 -> x = 53 + e0 -> fexp prec emax x = e0.
Proof. intros He ->. cbv [fexp emin prec emax]. lia. Qed.

Lemma shr_fexp_canonical m0 e0 :
  Zpos (digits2_pos m0) = 53 -> -1074 <= e0 ->
  shr_fexp prec emax (Zpos m0) e0 loc_Exact
  = (Build_shr_record (Zpos m0) false false, e0).
Proof.
  intros Hd He. unfold shr_fexp. simpl Zdigits2.
  rewrite (fexp_canonical _ e0) by lia.
  rewrite Z.sub_diag. reflexivity.
Qed.

Lemma binary_round_aux_after s mx ex lx m0 e0 :
  Zpos (digits2_pos m0) = 53 -> -1074 <= e0 <= 971 ->
  shr_fexp prec emax mx ex lx = (Build_shr_record (Zpos m0) false false, e0) ->
  binary_round_aux prec emax s mx ex lx = S754_finite s m0 e0.
Proof.
  intros Hd He Hshr. unfold binary_round_aux. rewrite Hshr.
  cbn [shr_m loc_of_shr_record round_nearest_even].
  rewrite shr_fexp_canonical by lia. cbn [shr_m].
  destruct (Z.leb_spec e0 (emax - prec)) as [H|H]; [reflexivity|].
  cbv [emax prec] in H. lia.
Qed.

Lemma binary_round_exact (s : bool) (m : positive) (e : Z) (m0 : positive) (e0 : Z) :
  Zpos (digits2_pos m0) = 53 ->
  -1074 <= e0 <= 971 ->
  (e0 <= e /\ Zpos m0 = Zpos m * 2 ^ (e - e0)) \/
  (e <= e0 /\ Zpos m = Zpos m0 * 2 ^ (e0 - e)) ->
  binary_round prec emax s m e = S754_finite s m0 e0.
Proof.
  intros Hd He Hv.
  assert (Hdig : Zpos (digits2_pos m) + e = 53 + e0).
  { destruct Hv as [[Hle Hv]|[Hle Hv]].
    - rewrite (digits_shift m m0 (e - e0)) in Hd by (lia || exact Hv). lia.
    - rewrite (digits_shift m0 m (e0 - e)) by (lia || exact Hv). lia. }
  unfold binary_round. rewrite (fexp_canonical _ e0) by lia.
  destruct Hv as [[Hle Hv]|[Hle Hv]].
  - assert (Hal : shl_align m e e0 = (m0, e0)).
    { unfold shl_align. destruct (e0 - e) as [|k|k] eqn:Hk.
      - assert (e = e0) by lia. subst e. rewrite Z.sub_diag in Hv.
        f_equal. lia.
      - lia.
      - f_equal. apply Pos2Z.inj. rewrite iter_xO_value, Hv. f_equal. f_equal. lia. }
    rewrite Hal. apply binary_round_aux_after; try lia.
    apply shr_fexp_canonical; lia.
  - assert (Hal : shl_align m e e0 = (m, e)).
    { unfold shl_align. destruct (e0 - e) as [|k|k] eqn:Hk; try reflexivity. lia. }
    rewrite Hal. apply binary_round_aux_after; try lia.
    unfold shr_fexp. simpl Zdigits2. rewrite (fexp_canonical _ e0) by lia.
    cbn [shr_record_of_loc]. unfold shr.
    destruct (e0 - e) as [|k|k] eqn:Hk.
    + assert (e = e0) by lia. subst e. rewrite Z.mul_1_r in Hv.
      injection Hv as ->. reflexivity.
    + assert (Hm : m = Pos.iter xO m0 k).
      { apply Pos2Z.inj. rewrite iter_xO_value. exact Hv. }
      rewrite Hm, iter_pos_iter, shr_exact. f_equal. lia.
    + lia.
Qed.

(* canonical form of a positive integer below 2^53 *)
Lemma canon_spec c :
  Zpos c < 2 ^ 53 ->
  - 52 <= canon_e c <= 0 /\
  Zpos (canon_m c) = Zpos c * 2 ^ (- canon_e c) /\
  Zpos (digits2_pos (canon_m c)) = 53.
Proof.
  intros Hc. unfold canon_m, canon_e.
  assert (Hlog : 0 <= Z.log2 (Zpos c) < 53).
  { split; [apply Z.log2_nonneg|]. apply Z.log2_lt_pow2; lia. }
  rewrite digits_log2.
  assert (Hpos : 0 < Zpos c * 2 ^ (- (Z.log2 (Zpos c) + 1 - 53))).
  { apply Z.mul_pos_pos; [lia|]. apply Z.pow_pos_nonneg; lia. }
  split; [lia|]. split.
  - rewrite Z2Pos.id by exact Hpos. reflexivity.
  - rewrite (digits_shift c _ (- (Z.log2 (Zpos c) + 1 - 53))).
    + rewrite digits_log2. lia.
    + lia.
    + rewrite Z2Pos.id by exact Hpos. reflexivity.
Qed.

Lemma normalize_pos s c :
  Zpos c < 2 ^ 53 ->
  binary_round prec emax s c 0 = S754_finite s (canon_m c) (canon_e c).
Proof.
  intros Hc. destruct (canon_spec c Hc) as [He [Hm Hd]].
  apply binary_round_exact; try lia.
  left. split; [lia|]. rewrite Z.sub_0_l. exact Hm.
Qed.

Lemma shl_align_value m e e' :
  e' <= e ->
  Zpos (fst (shl_align m e e')) = Zpos m * 2 ^ (e - e').
Proof.
  intros Hle. unfold shl_align. destruct (e' - e) as [|k|k] eqn:Hk; simpl fst.
  - replace (e - e') with 0 by lia. lia.
  - lia.
  - rewrite iter_xO_value. f_equal. f_equal. lia.
Qed.

Lemma pow2_split a b : 0 <= a -> 0 <= b -> 2 ^ a * 2 ^ b = 2 ^ (a + b).
Proof. intros. rewrite Z.pow_add_r by lia. reflexivity. Qed.

Lemma SFadd_pos a b c :
  Zpos a + Zpos b = Zpos c -> Zpos c < 2 ^ 53 ->
  SFadd prec emax (S754_finite false (canon_m a) (canon_e a))
                  (S754_finite false (canon_m b) (canon_e b))
  = S754_finite false (canon_m c) (canon_e c).
Proof.
  intros Hsum Hc.
  destruct (canon_spec a ltac:(lia)) as [Hea [Hma Hda]].
  destruct (canon_spec b ltac:(lia)) as [Heb [Hmb Hdb]].
  destruct (canon_spec c Hc) as [Hec [Hmc Hdc]].
  unfold SFadd. cbv zeta. cbn [cond_Zopp].
  set (ez := Z.min (canon_e a) (canon_e b)).
  assert (Hez : -52 <= ez <= 0) by (unfold ez; lia).
  assert (HM : Zpos (fst (shl_align (canon_m a) (canon_e a) ez))
               + Zpos (fst (shl_align (canon_m b) (canon_e b) ez))
               = Zpos c * 2 ^ (- ez)).
  { rewrite !shl_align_value by (unfold ez; lia).
    rewrite Hma, Hmb, <- !Z.mul_assoc, !pow2_split by (unfold ez; lia).
    replace (- canon_e a + (canon_e a - ez)) with (- ez) by lia.
    replace (- canon_e b + (canon_e b - ez)) with (- ez) by lia.
    rewrite <- Hsum. lia. }
  rewrite HM.
  assert (Hpos : 0 < Zpos c * 2 ^ (- ez)).
  { apply Z.mul_pos_pos; [lia|]. apply Z.pow_pos_nonneg; lia. }
  destruct (Zpos c * 2 ^ (- ez)) as [|M|M] eqn:HMp; try lia.
  unfold binary_normalize.
  apply binary_round_exact; try lia.
  destruct (Z_le_gt_dec (canon_e c) ez) as [Hle|Hgt].
  - left. split; [exact Hle|]. rewrite Hmc, <- HMp.
    rewrite <- Z.mul_assoc, pow2_split by lia. f_equal. f_equal. lia.
  - right. split; [lia|]. rewrite <- HMp, Hmc.
    rewrite <- Z.mul_assoc, pow2_split by lia. f_equal. f_equal. lia.
Qed.

Lemma canon_valid s c :
  Zpos c < 2 ^ 53 ->
  valid_binary (S754_finite s (canon_m c) (canon_e c)) = true.
Proof.
  intros Hc. destruct (canon_spec c Hc) as [He [_ Hd]].
  unfold valid_binary, SpecFloat.valid_binary, bounded, canonical_mantissa.
  rewrite Hd, (fexp_canonical _ (canon_e c)) by lia.
  rewrite Z.eqb_refl. simpl andb. apply Z.leb_le. cbv [emax prec]. lia.
Qed.

Lemma Prim2SF_number_pos c :
  Zpos c < 2 ^ 53 ->
  Prim2SF (number_of_Z (Zpos c)) = S754_finite false (canon_m c) (canon_e c).
Proof.
  intros Hc. unfold number_of_Z, binary_normalize.
  rewrite normalize_pos by exact Hc.
  apply Prim2SF_SF2Prim, canon_valid, Hc.
Qed.

Lemma Prim2SF_number_neg c :
  Zpos c < 2 ^ 53 ->
  Prim2SF (number_of_Z (Zneg c)) = S754_finite true (canon_m c) (canon_e c).
Proof.
  intros Hc. unfold number_of_Z, binary_normalize.
  rewrite normalize_pos by exact Hc.
  apply Prim2SF_SF2Prim, canon_valid, Hc.
Qed.

Lemma Prim2SF_number_zero : Prim2SF (number_of_Z 0) = S754_zero false.
Proof. reflexivity. Qed.

Lemma add_exact a b :
  0 <= a -> 0 <= b -> a + b <= MAX_SAFE_INTEGER ->
  (number_of_Z a + number_of_Z b)%float = number_of_Z (a + b).
Proof.
  intros Ha Hb Hsum. unfold MAX_SAFE_INTEGER in Hsum.
  rewrite <- (SF2Prim_Prim2SF (number_of_Z a + number_of_Z b)).
  rewrite add_spec. unfold SF64add.
  destruct a as [|a|a]; [| |lia]; destruct b as [|b|b]; try lia.
  - reflexivity.
  - rewrite Prim2SF_number_zero, Prim2SF_number_pos by lia.
    simpl SFadd. rewrite <- (Prim2SF_number_pos b) by lia.
    apply SF2Prim_Prim2SF.
  - rewrite Prim2SF_number_zero, Prim2SF_number_pos by lia.
    simpl SFadd. rewrite <- (Prim2SF_number_pos a) by lia.
    rewrite Z.add_0_r. apply SF2Prim_Prim2SF.
  - rewrite !Prim2SF_number_pos by lia.
    rewrite (SFadd_pos a b (a + b)) by (rewrite ?Pos2Z.inj_add; lia).
    rewrite <- (Prim2SF_number_pos (a + b)) by (rewrite Pos2Z.inj_add; lia).
    rewrite SF2Prim_Prim2SF. reflexivity.
Qed.

Lemma leb_zero_exact q :
  - MAX_SAFE_INTEGER <= q <= MAX_SAFE_INTEGER ->
  (number_of_Z q <=? 0)%float = (q <=? 0)%Z.
Proof.
  intros Hq. unfold MAX_SAFE_INTEGER in Hq. rewrite leb_spec.
  change (Prim2SF 0%float) with (S754_zero false).
  destruct q as [|c|c].
  - reflexivity.
  - rewrite Prim2SF_number_pos by lia. reflexivity.
  - rewrite Prim2SF_number_neg by lia. reflexivity.
Qed.
End NumberFacts.

(** * Properties of the cart store *)

Section CartFacts.

Import Cart.

Lemma product_id_with_quantity item q :
  product_id (with_quantity item q) = product_id item.
Proof. reflexivity. Qed.

(** Rewriting quantities leaves the identifiers where they are. *)
Lemma ids_map_quantity (f : CartItem -> CartItem) cart :
  (forall item, product_id (f item) = product_id item) ->
  ids (map f cart) = ids cart.
Proof.
  intros Hf. unfold ids. rewrite map_map.
  apply map_ext. exact Hf.
Qed.

Lemma find_none_not_in productId cart :
  find (fun item => product_id item =? productId) cart = None ->
  ~ In productId (ids cart).
Proof.
  induction cart as [|a cart IH]; simpl; intros Hfind; [tauto|].
  destruct (String.eqb_spec (product_id a) productId) as [E|N];
    [discriminate|].
  intros [H|H]; [contradiction | exact (IH Hfind H)].
Qed.

Lemma lines_nil productId cart :
  ~ In productId (ids cart) -> lines productId cart = [].
Proof.
  induction cart as [|a cart IH]; simpl; intros Hn; [reflexivity|].
  destruct (String.eqb_spec (product_id a) productId) as [E|N].
  - exfalso. apply Hn. left. exact E.
  - apply IH. intros H. apply Hn. right. exact H.
Qed.

Lemma lines_app productId c1 c2 :
  lines productId (c1 ++ c2) = lines productId c1 ++ lines productId c2.
Proof. apply filter_app. Qed.

(** [find] is the head of [filter]. *)
Lemma quantity_of_lines productId cart :
  quantity_of productId cart =
  match lines productId cart with
  | item :: _ => quantity item
  | [] => 0
  end.
Proof.
  unfold quantity_of, lines.
  induction cart as [|a cart IH]; simpl; [reflexivity|].
  destruct (product_id a =? productId); [reflexivity | exact IH].
Qed.

Lemma ids_addToCart product q cart :
  ids (addToCart product q cart) = ids cart \/
  (~ In (Product.id product) (ids cart) /\
   ids (addToCart product q cart) = ids cart ++ [Product.id product]).
Proof.
  unfold addToCart.
  destruct (find _ cart) eqn:Hfind.
  - left. apply ids_map_quantity. intros item.
    destruct (product_id item =? Product.id product); reflexivity.
  - right. split; [apply find_none_not_in; exact Hfind|].
    unfold ids. rewrite map_app. reflexivity.
Qed.

Lemma unique_addToCart product q cart :
  NoDup (ids cart) -> NoDup (ids (addToCart product q cart)).
Proof.
  intros Hu.
  destruct (ids_addToCart product q cart) as [E | [Hn E]]; rewrite E.
  - exact Hu.
  - apply NoDup_app; [exact Hu | repeat constructor; simpl; tauto | ].
    intros x Hx [Hy | []]. subst x. exact (Hn Hx).
Qed.

Lemma unique_removeFromCart productId cart :
  NoDup (ids cart) -> NoDup (ids (removeFromCart productId cart)).
Proof.
  unfold removeFromCart, ids.
  induction cart as [|a cart IH]; simpl; intros Hu; [constructor|].
  inversion Hu as [|x l Hnotin Hrest]; subst.
  destruct (negb (product_id a =? productId)); simpl.
  - constructor; [|exact (IH Hrest)].
    intros Hin. apply Hnotin.
    apply in_map_iff in Hin. destruct Hin as [b [Hb Hin]].
    apply filter_In in Hin. apply in_map_iff. exists b. tauto.
  - exact (IH Hrest).
Qed.

Lemma unique_updateQuantity productId q cart :
  NoDup (ids cart) -> NoDup (ids (updateQuantity productId q cart)).
Proof.
  intros Hu. unfold updateQuantity.
  destruct (q <=? 0)%Z; [apply unique_removeFromCart; exact Hu|].
  rewrite ids_map_quantity; [exact Hu|].
  intros item. destruct (product_id item =? productId); reflexivity.
Qed.

(** The invariant of the store: the identifiers of a cart are distinct. *)
Lemma reachable_unique cart : reachable cart -> NoDup (ids cart).
Proof.
  induction 1 as [ | product q cart _ IH | productId cart _ IH
                   | productId q cart _ IH | cart _ _ ].
  - constructor.
  - apply unique_addToCart; exact IH.
  - apply unique_removeFromCart; exact IH.
  - apply unique_updateQuantity; exact IH.
  - constructor.
Qed.

Lemma unique_lines_le_1 productId cart :
  NoDup (ids cart) -> (List.length (lines productId cart) <= 1)%nat.
Proof.
  induction cart as [|a cart IH]; simpl; intros Hu; [lia|].
  inversion Hu as [|x l Hnotin Hrest]; subst.
  destruct (String.eqb_spec (product_id a) productId) as [E|N].
  - subst productId. fold (lines (product_id a) cart).
    rewrite (lines_nil _ _ Hnotin). simpl. lia.
  - exact (IH Hrest).
Qed.

(** Adding a product the cart has: its one line grows by the quantity. *)
Lemma lines_addToCart_present product q cart item :
  NoDup (ids cart) ->
  lines (Product.id product) cart = [item] ->
  lines (Product.id product) (addToCart product q cart) =
    [with_quantity item (quantity item + q)].
Proof.
  intros Hu Hl. unfold addToCart.
  assert (Hfind : find (fun it => product_id it =? Product.id product) cart
                  <> None).
  { intros Hnone. apply find_none_not_in in Hnone.
    rewrite (lines_nil _ _ Hnone) in Hl. discriminate. }
  destruct (find _ cart); [clear Hfind | congruence].
  revert Hu Hl. unfold lines.
  induction cart as [|a cart IH]; simpl; intros Hu Hl; [discriminate|].
  inversion Hu as [|x l Hnotin Hrest]; subst.
  destruct (String.eqb_spec (product_id a) (Product.id product)) as [E|N];
    simpl.
  - rewrite E, String.eqb_refl.
    rewrite <- E in *.
    assert (Hnil : lines (product_id a) cart = []) by
      (apply lines_nil; exact Hnotin).
    unfold lines in Hnil. rewrite Hnil in Hl.
    injection Hl as Hl. subst item. f_equal.
    assert (Hids : ~ In (product_id a)
              (ids (map (fun it => if product_id it =? product_id a
                                   then with_quantity it (quantity it + q)
                                   else it) cart))).
    { rewrite ids_map_quantity; [exact Hnotin|].
      intros it. destruct (product_id it =? product_id a); reflexivity. }
    exact (lines_nil _ _ Hids).
  - destruct (String.eqb_spec (product_id a) (Product.id product));
      [contradiction|].
    apply IH; assumption.
Qed.

(** Adding a product the cart lacks: one new line with the quantity. *)
Lemma lines_addToCart_absent product q cart :
  lines (Product.id product) cart = [] ->
  exists item,
    lines (Product.id product) (addToCart product q cart) = [item] /\
    quantity item = q.
Proof.
  intros Hl. unfold addToCart.
  assert (Hfind : find (fun it => product_id it =? Product.id product) cart
                  = None).
  { destruct (find _ cart) as [it|] eqn:Hf; [|reflexivity].
    apply find_some in Hf. destruct Hf as [Hin Heq].
    assert (Hin' : In it (lines (Product.id product) cart))
      by (apply filter_In; tauto).
    rewrite Hl in Hin'. destruct Hin'. }
  rewrite Hfind. eexists. split.
  - rewrite lines_app, Hl. simpl. rewrite String.eqb_refl. reflexivity.
  - reflexivity.
Qed.

(** A run of adds on a cart that has the product. *)
Lemma lines_add_all_present product qs :
  forall cart item,
    NoDup (ids cart) ->
    lines (Product.id product) cart = [item] ->
    exists item',
      lines (Product.id product) (add_all product qs cart) = [item'] /\
      quantity item' = quantity item + sum qs.
Proof.
  induction qs as [|q qs IH]; simpl; intros cart item Hu Hl.
  - exists item. split; [exact Hl | lia].
  - destruct (IH (addToCart product q cart)
                 (with_quantity item (quantity item + q))) as [item' [H1 H2]].
    + apply unique_addToCart; exact Hu.
    + apply lines_addToCart_present; assumption.
    + exists item'. split; [exact H1|]. rewrite H2. simpl. lia.
Qed.

Lemma unique_add_all product qs :
  forall cart, NoDup (ids cart) -> NoDup (ids (add_all product qs cart)).
Proof.
  induction qs as [|q qs IH]; simpl; intros cart Hu; [exact Hu|].
  apply IH, unique_addToCart, Hu.
Qed.

(** The merge of a run of adds, on any cart with distinct identifiers. *)
Lemma add_all_merges product qs cart :
  NoDup (ids cart) ->
  qs <> [] ->
  exists item,
    lines (Product.id product) (add_all product qs cart) = [item] /\
    quantity item = quantity_of (Product.id product) cart + sum qs.
Proof.
  intros Hu Hqs. destruct qs as [|q qs]; [congruence|]. simpl.
  rewrite quantity_of_lines.
  pose proof (unique_lines_le_1 (Product.id product) cart Hu) as Hle.
  destruct (lines (Product.id product) cart) as [|it rest] eqn:Hl.
  - destruct (lines_addToCart_absent product q cart Hl) as [it [H1 H2]].
    destruct (lines_add_all_present product qs (addToCart product q cart) it)
      as [item' [H3 H4]];
      [apply unique_addToCart; exact Hu | exact H1 |].
    exists item'. split; [exact H3 | lia].
  - destruct rest; [|simpl in Hle; lia].
    destruct (lines_add_all_present product qs (addToCart product q cart)
                (with_quantity it (quantity it + q))) as [item' [H3 H4]];
      [apply unique_addToCart; exact Hu
      | apply lines_addToCart_present; assumption |].
    exists item'. split; [exact H3 | simpl in H4; lia].
Qed.

End CartFacts.

(** * The cart store on numbers and on integers *)

Section JsCartFacts.

Import Cart.

Lemma find_of_cart productId cart :
  find (fun item => JsCart.product_id item =? productId) (JsCart.of_cart cart)
  = option_map JsCart.of_item
      (find (fun item => product_id item =? productId) cart).
Proof.
  induction cart as [|a cart IH]; simpl; [reflexivity|].
  destruct (product_id a =? productId); [reflexivity | exact IH].
Qed.

(** [addToCart] on numbers is [addToCart] on integers when the quantity
    added and the quantity of the lines of the product are non-negative
    and their sum stays within [Js.MAX_SAFE_INTEGER]. *)
Lemma addToCart_on_numbers product q cart :
  0 <= q ->
  (forall item,
      In item cart -> product_id item = Product.id product ->
      0 <= quantity item /\ quantity item + q <= Js.MAX_SAFE_INTEGER) ->
  JsCart.addToCart product (Js.number_of_Z q) (JsCart.of_cart cart)
  = JsCart.of_cart (addToCart product q cart).
Proof.
  intros Hq Hsafe. unfold JsCart.addToCart, addToCart.
  rewrite find_of_cart.
  destruct (find _ cart) as [existing|]; simpl option_map; cbv iota.
  - unfold JsCart.of_cart. rewrite !map_map. apply map_ext_in.
    intros item Hin. simpl JsCart.product_id.
    destruct (String.eqb_spec (product_id item) (Product.id product))
      as [E|N]; [|reflexivity].
    destruct (Hsafe item Hin E) as [H0 Hmax].
    unfold JsCart.with_quantity, JsCart.of_item. simpl.
    rewrite add_exact by assumption. reflexivity.
  - unfold JsCart.of_cart. rewrite map_app. reflexivity.
Qed.

Lemma removeFromCart_on_numbers productId cart :
  JsCart.removeFromCart productId (JsCart.of_cart cart)
  = JsCart.of_cart (removeFromCart productId cart).
Proof.
  unfold JsCart.removeFromCart, removeFromCart, JsCart.of_cart.
  induction cart as [|a cart IH]; simpl; [reflexivity|].
  destruct (product_id a =? productId); simpl; [|f_equal]; exact IH.
Qed.

(** [updateQuantity] on numbers is [updateQuantity] on integers for every
    integer quantity within [Js.MAX_SAFE_INTEGER], of either sign. *)
Lemma updateQuantity_on_numbers productId q cart :
  - Js.MAX_SAFE_INTEGER <= q <= Js.MAX_SAFE_INTEGER ->
  JsCart.updateQuantity productId (Js.number_of_Z q) (JsCart.of_cart cart)
  = JsCart.of_cart (updateQuantity productId q cart).
Proof.
  intros Hq. unfold JsCart.updateQuantity, updateQuantity.
  rewrite leb_zero_exact by exact Hq.
  destruct (q <=? 0)%Z; [apply removeFromCart_on_numbers|].
  unfold JsCart.of_cart. rewrite !map_map. apply map_ext.
  intros item. simpl JsCart.product_id.
  destruct (product_id item =? productId); reflexivity.
Qed.

(** In a cart with distinct identifiers the quantity recorded for a
    product is the quantity of its item. *)
Lemma quantity_of_item cart item :
  NoDup (ids cart) -> In item cart ->
  quantity_of (product_id item) cart = quantity item.
Proof.
  unfold quantity_of.
  induction cart as [|a cart IH]; simpl; intros Hu Hin; [contradiction|].
  inversion Hu as [|x l Hnotin Hrest]; subst.
  destruct (String.eqb_spec (product_id a) (product_id item)) as [E|N].
  - destruct Hin as [Hin|Hin]; [subst a; reflexivity|].
    exfalso. apply Hnotin. rewrite E. apply in_map. exact Hin.
  - destruct Hin as [Hin|Hin]; [congruence|]. exact (IH Hrest Hin).
Qed.

Lemma quantity_of_addToCart product q cart :
  NoDup (ids cart) ->
  quantity_of (Product.id product) (addToCart product q cart)
  = quantity_of (Product.id product) cart + q.
Proof.
  intros Hu. rewrite !quantity_of_lines.
  pose proof (unique_lines_le_1 (Product.id product) cart Hu) as Hle.
  destruct (lines (Product.id product) cart) as [|it rest] eqn:Hl.
  - destruct (lines_addToCart_absent product q cart Hl) as [it [H1 H2]].
    rewrite H1, H2. lia.
  - destruct rest; [|simpl in Hle; lia].
    rewrite (lines_addToCart_present product q cart it Hu Hl). reflexivity.
Qed.

Lemma sum_positive qs : (forall q, In q qs -> 0 < q) -> 0 <= sum qs.
Proof.
  induction qs as [|q qs IH]; simpl; intros Hpos; [lia|].
  assert (0 < q) by (apply Hpos; left; reflexivity).
  assert (0 <= sum qs) by (apply IH; intros x Hx; apply Hpos; right; exact Hx).
  lia.
Qed.

(** A run of adds of positive quantities on numbers is the run on
    integers while the quantity of the product stays within
    [Js.MAX_SAFE_INTEGER]. *)
Lemma add_all_on_numbers product qs :
  forall cart,
    NoDup (ids cart) ->
    (forall q, In q qs -> 0 < q) ->
    0 <= quantity_of (Product.id product) cart ->
    quantity_of (Product.id product) cart + sum qs <= Js.MAX_SAFE_INTEGER ->
    JsCart.add_all product (map Js.number_of_Z qs) (JsCart.of_cart cart)
    = JsCart.of_cart (add_all product qs cart).
Proof.
  induction qs as [|q qs IH]; intros cart Hu Hpos H0 Hmax; [reflexivity|].
  assert (Hq : 0 < q) by (apply Hpos; left; reflexivity).
  assert (Hrest : forall x, In x qs -> 0 < x)
    by (intros x Hx; apply Hpos; right; exact Hx).
  pose proof (sum_positive qs Hrest) as Hsum.
  simpl sum in Hmax. simpl.
  rewrite addToCart_on_numbers.
  - apply IH.
    + apply unique_addToCart; exact Hu.
    + exact Hrest.
    + rewrite quantity_of_addToCart by exact Hu. lia.
    + rewrite quantity_of_addToCart by exact Hu. lia.
  - lia.
  - intros item Hin Hid. rewrite <- Hid in H0, Hmax.
    rewrite (quantity_of_item cart item Hu Hin) in H0, Hmax. lia.
Qed.

End JsCartFacts.

(** ** The merge invariant *)

(** C5, as stated, fails: on the cart that already holds two chili, the
    adds of 1 and 4 chili leave one line of quantity 7, not the sum 5 of the
    added quantities; and on numbers, adding 1 to a line of 2^53 leaves the
    cart as it was. *)
Lemma add_to_held_product_exceeds_sum :
  let cart := Cart.addToCart Cart.chili 2 [] in
  Cart.reachable cart /\
  Cart.lines "chili" (Cart.add_all Cart.chili [1; 4] cart)
  = [Cart.mkItem "chili" "Chili Powder" "/img/chili.jpg" 7 (Cart.cents 10)] /\
  Cart.sum [1; 4] = 5 /\
  let full := JsCart.of_cart (Cart.addToCart Cart.chili (2 ^ 53) []) in
  JsCart.add_all Cart.chili [Js.number_of_Z 1] full = full.
Proof.
  intros cart. split; [constructor; constructor|].
  split; [reflexivity|]. split; [reflexivity|].
  vm_compute. reflexivity.
Qed.

(** C5, amended. Every cart the store can hold has at most one line item
    per product identifier; and every non-empty run of [addToCart] calls
    for one product, each with a positive quantity, applied to it leaves
    exactly one line item of that product, whose quantity is what the cart
    recorded for the product before (0 when it had no such line) plus the
    sum of the added quantities, provided the recorded quantity is not
    negative and that total does not exceed [Js.MAX_SAFE_INTEGER]; on a
    cart without the product it is the sum of the added quantities. Under
    these bounds the run on numbers, as the source computes it, gives the
    same cart. *)
Theorem add_merge_invariant (cart : list Cart.CartItem) :
  Cart.reachable cart ->
  NoDup (Cart.ids cart) /\
  (forall productId,
      (List.length (Cart.lines productId cart) <= 1)%nat) /\
  (forall product qs,
      qs <> [] ->
      (forall q, In q qs -> 0 < q) ->
      0 <= Cart.quantity_of (Product.id product) cart ->
      Cart.quantity_of (Product.id product) cart + Cart.sum qs
        <= Js.MAX_SAFE_INTEGER ->
      (exists item,
          Cart.lines (Product.id product) (Cart.add_all product qs cart)
            = [item] /\
          Cart.quantity item
            = Cart.quantity_of (Product.id product) cart + Cart.sum qs /\
          (Cart.lines (Product.id product) cart = [] ->
           Cart.quantity item = Cart.sum qs)) /\
      JsCart.add_all product (map Js.number_of_Z qs) (JsCart.of_cart cart)
      = JsCart.of_cart (Cart.add_all product qs cart)).
Proof.
  intros Hreach.
  pose proof (reachable_unique cart Hreach) as Hu.
  split; [exact Hu|]. split.
  - intros productId. apply unique_lines_le_1. exact Hu.
  - intros product qs Hqs Hpos H0 Hmax. split.
    + destruct (add_all_merges product qs cart Hu Hqs) as [item [H1 H2]].
      exists item. split; [exact H1|]. split; [exact H2|].
      intros Hnil. rewrite H2, quantity_of_lines, Hnil. lia.
    + apply add_all_on_numbers; assumption.
Qed.

Lemma add_merge_invariant_witness :
  Cart.reachable (Cart.addToCart Cart.chili 2 []) /\
  (exists item,
    Cart.lines "chili"
      (Cart.add_all Cart.chili [1; 4] (Cart.addToCart Cart.chili 2 []))
      = [item] /\
    Cart.quantity item = 2 + 5) /\
  JsCart.add_all Cart.chili (map Js.number_of_Z [1; 4])
    (JsCart.of_cart (Cart.addToCart Cart.chili 2 []))
  = JsCart.of_cart
      (Cart.add_all Cart.chili [1; 4] (Cart.addToCart Cart.chili 2 [])).
Proof.
  assert (Hreach : Cart.reachable (Cart.addToCart Cart.chili 2 []))
    by (constructor; constructor).
  split; [exact Hreach|].
  destruct (add_merge_invariant _ Hreach) as [_ [_ Hadd]].
  destruct (Hadd Cart.chili [1; 4]) as [[item [H1 [H2 _]]] Hnum].
  - discriminate.
  - intros q [<-|[<-|[]]]; lia.
  - vm_compute. discriminate.
  - vm_compute. discriminate.
  - split; [|exact Hnum]. exists item. split; [exact H1 | exact H2].
Defined.

(** ** Setting a quantity *)

(** C6. [updateQuantity(id, q)] with [q <= 0] is [removeFromCart(id)];
    with [q >= 1] it keeps every line item at its position, gives the
    line items of [id] the quantity [q] and nothing else, and leaves the
    other line items as they were. *)
Theorem updateQuantity_remove_or_replace
    (cart : list Cart.CartItem) (productId : string) (q : Z) :
  (q <= 0 ->
   Cart.updateQuantity productId q cart = Cart.removeFromCart productId cart)
  /\
  (1 <= q ->
   Cart.ids (Cart.updateQuantity productId q cart) = Cart.ids cart /\
   forall i item,
     nth_error cart i = Some item ->
     nth_error (Cart.updateQuantity productId q cart) i =
       Some (if Cart.product_id item =? productId
             then Cart.with_quantity item q
             else item)).
Proof.
  unfold Cart.updateQuantity. split; intros Hq.
  - destruct (Z.leb_spec q 0); [reflexivity | lia].
  - destruct (Z.leb_spec q 0); [lia|]. split.
    + apply ids_map_quantity. intros item.
      destruct (Cart.product_id item =? productId); reflexivity.
    + intros i item Hi. rewrite nth_error_map, Hi. reflexivity.
Qed.

Lemma updateQuantity_remove_or_replace_witness :
  let cart := Cart.addToCart Cart.turmeric 1 (Cart.addToCart Cart.chili 2 []) in
  Cart.updateQuantity "chili" 0 cart = Cart.removeFromCart "chili" cart /\
  Cart.ids (Cart.updateQuantity "chili" 7 cart) = ["chili"; "turmeric"] /\
  option_map Cart.quantity (nth_error (Cart.updateQuantity "chili" 7 cart) 0)
    = Some 7.
Proof.
  intros cart.
  destruct (updateQuantity_remove_or_replace cart "chili" 0) as [Hrm _].
  destruct (updateQuantity_remove_or_replace cart "chili" 7) as [_ Hset].
  split; [apply Hrm; lia|].
  destruct Hset as [Hids Hnth]; [lia|].
  split; [exact Hids|].
  rewrite (Hnth 0%nat _ eq_refl). reflexivity.
Defined.

(** ** The total price *)

(** The scenario of the specification: two of A at 5.00 and one of B at
    3.50 make 3 items and a total of 13.50, and this total is exact. *)
Example scenario_totals :
  let cart := Cart.addToCart Cart.productB 1 (Cart.addToCart Cart.productA 2 []) in
  Cart.getTotalItems cart = 3 /\
  Cart.getTotalPrice cart = Cart.cents 1350 /\
  Cart.exact cart = true.
Proof. vm_compute. repeat split; reflexivity. Qed.

(** C1, as stated, fails: the cart holding one chili at 0.10 and one
    turmeric at 0.20 has a total that is not the number 0.30 and whose value
    is not the exact total of its line items; and the same three line items
    have different totals in two orders of insertion. *)
Lemma getTotalPrice_not_exact :
  let cart := Cart.addToCart Cart.turmeric 1 (Cart.addToCart Cart.chili 1 []) in
  Cart.reachable cart /\
  Cart.getTotalPrice cart <> Cart.cents 30 /\
  Cart.exact cart = false /\
  Cart.getTotalPrice (Cart.addToCart Cart.cumin 1 cart) <>
  Cart.getTotalPrice
    (Cart.addToCart Cart.chili 1
       (Cart.addToCart Cart.turmeric 1 (Cart.addToCart Cart.cumin 1 []))).
Proof.
  intros cart. split; [constructor; constructor; constructor|].
  split; [float_neq|]. split; [vm_compute; reflexivity | float_neq].
Qed.

(** C1, amended. [getTotalPrice()] is 0 on the empty cart and, on a cart
    with a last line item, the total of the line items before it plus the
    price of the last times its quantity, the product and the sum being
    those of binary64 numbers (rounded to nearest): the total is the left to
    right floating-point sum of price times quantity in cart order. *)
Theorem getTotalPrice_left_to_right :
  Cart.getTotalPrice [] = 0%float /\
  forall cart item,
    Cart.getTotalPrice (cart ++ [item]) =
      (Cart.getTotalPrice cart
       + Cart.price item * Js.number_of_Z (Cart.quantity item))%float.
Proof.
  split; [reflexivity|].
  intros cart item. unfold Cart.getTotalPrice.
  rewrite fold_left_app. reflexivity.
Qed.

(** * Properties of the payment status reconciler *)

Section ReconcilerFacts.

Import Reconciler.

Variable svc : SessionService.

(** The three ways a call of [pollPaymentStatus] goes. *)
Lemma poll_exhausted sid a st :
  (maxAttempts <= a)%nat ->
  pollPaymentStatus svc sid a st = setPaymentStatus timeout st.
Proof.
  intros Ha. unfold pollPaymentStatus.
  destruct (Nat.leb_spec maxAttempts a); [reflexivity | lia].
Qed.

Lemma poll_pending sid a st :
  (a < maxAttempts)%nat ->
  pending (svc sid (sent st)) = true ->
  pollPaymentStatus svc sid a st =
    setTimeout sid (a + 1) pollInterval (axios_get sid st).
Proof.
  intros Ha Hp. unfold pollPaymentStatus.
  destruct (Nat.leb_spec maxAttempts a); [lia|].
  destruct (svc sid (sent st)) as [data|]; simpl in Hp; [|discriminate].
  apply andb_true_iff in Hp. destruct Hp as [Hpaid Hexp].
  apply negb_true_iff in Hpaid, Hexp. rewrite Hpaid, Hexp. reflexivity.
Qed.

Lemma poll_failure sid a st :
  (a < maxAttempts)%nat ->
  svc sid (sent st) = Failure ->
  pollPaymentStatus svc sid a st =
    setPaymentStatus error
      (consoleError "Error checking payment status:" (axios_get sid st)).
Proof.
  intros Ha Hf. unfold pollPaymentStatus.
  destruct (Nat.leb_spec maxAttempts a); [lia|].
  rewrite Hf. reflexivity.
Qed.

(** A call made while nothing is pending and the page is checking either
    ends in a terminal status with nothing pending, or keeps checking
    with the next call pending after [pollInterval]. *)
Lemma poll_outcome sid a st :
  timer st = None ->
  paymentStatus st = checking ->
  let st' := pollPaymentStatus svc sid a st in
  (timer st' = None /\ terminal (paymentStatus st') = true) \/
  (paymentStatus st' = checking /\
   timer st' = Some (mkTimer pollInterval sid (a + 1)) /\
   (a < maxAttempts)%nat).
Proof.
  intros Ht Hs. unfold pollPaymentStatus.
  destruct (Nat.leb_spec maxAttempts a) as [Hle|Hlt]; simpl.
  - left. split; [exact Ht | reflexivity].
  - destruct (svc sid (sent st)) as [data|]; simpl.
    + destruct (payment_status data =? "paid"); simpl;
        [left; split; [exact Ht | reflexivity]|].
      destruct (status data =? "expired"); simpl;
        [left; split; [exact Ht | reflexivity]|].
      right. repeat split; [exact Hs | exact Hlt].
    + left. split; [exact Ht | reflexivity].
Qed.

Lemma poll_consistent sid a st :
  timer st = None ->
  paymentStatus st = checking ->
  consistent (pollPaymentStatus svc sid a st).
Proof.
  intros Ht Hs.
  destruct (poll_outcome sid a st Ht Hs) as [[H _] | [H _]];
    [left | right]; exact H.
Qed.

Lemma get_absent name (params : URLSearchParams) :
  (forall v, ~ In (name, v) params) -> get name params = None.
Proof.
  intros Habs. unfold get.
  destruct (find _ params) as [[k v]|] eqn:Hfind; [|reflexivity].
  apply find_some in Hfind. destruct Hfind as [Hin Hk].
  simpl in Hk. apply String.eqb_eq in Hk. subst k.
  exfalso. exact (Habs v Hin).
Qed.

Lemma mount_consistent params : consistent (mount svc params).
Proof.
  unfold mount, useEffect.
  destruct (get "session_id" params) as [sid|]; [|left; reflexivity].
  destruct (Js.falsy sid); [left; reflexivity|].
  apply poll_consistent; reflexivity.
Qed.

Lemma step_consistent st st' :
  consistent st -> step svc st st' -> consistent st'.
Proof.
  unfold step, fire. intros Hc Hstep.
  destruct (timer st) as [t|] eqn:Ht; [|discriminate].
  destruct Hc as [Hc|Hc]; [congruence|].
  injection Hstep as <-.
  apply poll_consistent; [reflexivity | exact Hc].
Qed.

Lemma steps_consistent st st' :
  consistent st -> steps svc st st' -> consistent st'.
Proof.
  intros Hc Hsteps. induction Hsteps as [st | st st1 st2 Hstep _ IH].
  - exact Hc.
  - apply IH. exact (step_consistent _ _ Hc Hstep).
Qed.

(** With nothing pending the page stays as it is. *)
Lemma quiet_is_final st :
  timer st = None ->
  fire svc st = None /\
  (forall st', steps svc st st' -> st' = st) /\
  (forall fuel, run fuel svc st = st).
Proof.
  intros Ht.
  assert (Hfire : fire svc st = None) by (unfold fire; rewrite Ht; reflexivity).
  split; [exact Hfire|]. split.
  - intros st' Hsteps. destruct Hsteps as [st | st st1 st2 Hstep _].
    + reflexivity.
    + unfold step in Hstep. congruence.
  - intros [|fuel]; simpl; [reflexivity|]. rewrite Hfire. reflexivity.
Qed.

(** The run of a page whose first [k] replies are pending and whose next
    reply is a failure: [k + 1] queries and the status [error]. *)
Lemma run_to_failure sid k :
  forall a st,
    timer st = None ->
    (a + k < maxAttempts)%nat ->
    (forall i, (i < k)%nat -> pending (svc sid (sent st + i)%nat) = true) ->
    svc sid (sent st + k)%nat = Failure ->
    let st' := run k svc (pollPaymentStatus svc sid a st) in
    paymentStatus st' = error /\ timer st' = None /\
    sent st' = (sent st + k + 1)%nat.
Proof.
  induction k as [|k IH]; intros a st Ht Ha Hpend Hfail; simpl.
  - rewrite Nat.add_0_r in Hfail.
    rewrite poll_failure by (assumption || lia). simpl.
    repeat split; [exact Ht | lia].
  - rewrite poll_pending;
      [| lia | specialize (Hpend 0%nat); rewrite Nat.add_0_r in Hpend;
               apply Hpend; lia ].
    unfold fire at 1. simpl timer. cbv iota. simpl.
    match goal with
    | |- context [run k svc (pollPaymentStatus svc sid ?a' ?st')] =>
        destruct (IH a' st') as [H1 [H2 H3]]
    end; simpl.
    + reflexivity.
    + lia.
    + intros i Hi. replace (S (sent st + i)) with (sent st + S i)%nat by lia.
      apply Hpend. lia.
    + replace (S (sent st + k)) with (sent st + S k)%nat by lia. exact Hfail.
    + repeat split; [exact H1 | exact H2 | simpl in H3; lia].
Qed.

Lemma fire_timer st t :
  timer st = Some t ->
  fire svc st =
    Some (pollPaymentStatus svc (timer_sessionId t) (timer_attempts t)
            (clearTimer st)).
Proof. intros Ht. unfold fire. rewrite Ht. reflexivity. Qed.

Lemma run_step fuel st st' :
  fire svc st = Some st' -> run (S fuel) svc st = run fuel svc st'.
Proof. intros Hf. simpl. rewrite Hf. reflexivity. Qed.

Lemma run_add n m :
  forall st, run (n + m) svc st = run m svc (run n svc st).
Proof.
  induction n as [|n IH]; intros st; simpl; [reflexivity|].
  destruct (fire svc st) as [st'|] eqn:Hf; [apply IH|].
  destruct m as [|m]; simpl; [reflexivity|]. rewrite Hf. reflexivity.
Qed.

(** A run follows the transitions of the page. *)
Lemma run_steps fuel : forall st, steps svc st (run fuel svc st).
Proof.
  induction fuel as [|fuel IH]; intros st; simpl; [constructor|].
  destruct (fire svc st) as [st'|] eqn:Hf; [|constructor].
  apply steps_next with st'; [exact Hf | apply IH].
Qed.

End ReconcilerFacts.

(** One callback of a run whose reply is pending. *)
Ltac pending_step Hp :=
  erewrite run_step by (apply fire_timer; reflexivity);
  cbn [Reconciler.timer_sessionId Reconciler.timer_attempts];
  rewrite poll_pending
    by (solve [unfold Reconciler.maxAttempts; simpl; lia | apply Hp]).

(** ** Polling an open session *)

(** C3. When the return URL carries a session whose every status reply is
    open and unpaid, the page sends exactly 5 status queries: the first when
    it is mounted, each of the others from a callback set for 2000 ms after
    the reply before it; the callback set for 2000 ms after the fifth reply
    sends nothing and sets the status [timeout], after which nothing is
    pending. *)
Theorem always_open_times_out
    (svc : Reconciler.SessionService) (params : Reconciler.URLSearchParams)
    (sid : string) :
  Reconciler.get "session_id" params = Some sid ->
  sid <> "" ->
  (forall n, Reconciler.pending (svc sid n) = true) ->
  let final := Reconciler.run 5 svc (Reconciler.mount svc params) in
  Reconciler.log final =
    [Reconciler.SetSessionId sid;
     Reconciler.GetStatus sid; Reconciler.SetTimeout 2000 sid 1;
     Reconciler.GetStatus sid; Reconciler.SetTimeout 2000 sid 2;
     Reconciler.GetStatus sid; Reconciler.SetTimeout 2000 sid 3;
     Reconciler.GetStatus sid; Reconciler.SetTimeout 2000 sid 4;
     Reconciler.GetStatus sid; Reconciler.SetTimeout 2000 sid 5;
     Reconciler.SetPaymentStatus Reconciler.timeout] /\
  Reconciler.sent final = 5%nat /\
  Reconciler.queries (Reconciler.log final) = Reconciler.maxAttempts /\
  Reconciler.paymentStatus final = Reconciler.timeout /\
  Reconciler.timer final = None /\
  (forall st, Reconciler.steps svc final st -> st = final) /\
  (forall fuel, (5 <= fuel)%nat ->
     Reconciler.run fuel svc (Reconciler.mount svc params) = final).
Proof.
  intros Hget Hsid Hp.
  assert (Hfinal :
    Reconciler.run 5 svc (Reconciler.mount svc params) =
    Reconciler.setPaymentStatus Reconciler.timeout
      (Reconciler.clearTimer
        (Reconciler.setTimeout sid 5 2000 (Reconciler.axios_get sid
        (Reconciler.clearTimer
        (Reconciler.setTimeout sid 4 2000 (Reconciler.axios_get sid
        (Reconciler.clearTimer
        (Reconciler.setTimeout sid 3 2000 (Reconciler.axios_get sid
        (Reconciler.clearTimer
        (Reconciler.setTimeout sid 2 2000 (Reconciler.axios_get sid
        (Reconciler.clearTimer
        (Reconciler.setTimeout sid 1 2000 (Reconciler.axios_get sid
          (Reconciler.setSessionId sid Reconciler.initial))))))))))))))))).
  { unfold Reconciler.mount, Reconciler.useEffect. rewrite Hget.
    unfold Js.falsy. destruct (String.eqb_spec sid ""); [contradiction|].
    rewrite poll_pending
      by (solve [unfold Reconciler.maxAttempts; lia | apply Hp]).
    do 4 pending_step Hp.
    erewrite run_step by (apply fire_timer; reflexivity).
    cbn [Reconciler.timer_sessionId Reconciler.timer_attempts].
    rewrite poll_exhausted by (unfold Reconciler.maxAttempts; simpl; lia).
    reflexivity. }
  intros final. subst final. rewrite Hfinal.
  split; [reflexivity|]. split; [reflexivity|].
  split; [reflexivity|].
  split; [reflexivity|]. split; [reflexivity|]. split.
  - apply quiet_is_final. reflexivity.
  - intros fuel Hfuel.
    replace fuel with (5 + (fuel - 5))%nat by lia.
    rewrite run_add, Hfinal. apply quiet_is_final. reflexivity.
Qed.

Lemma always_open_times_out_witness :
  let final :=
    Reconciler.run 5 Reconciler.always_open
      (Reconciler.mount Reconciler.always_open Reconciler.return_url) in
  Reconciler.sent final = 5%nat /\
  Reconciler.paymentStatus final = Reconciler.timeout /\
  Reconciler.timer final = None.
Proof.
  destruct (always_open_times_out Reconciler.always_open
              Reconciler.return_url "cs_test_a1b2c3")
    as [_ [Hsent [_ [Hstatus [Htimer _]]]]].
  - reflexivity.
  - discriminate.
  - intros n. reflexivity.
  - split; [exact Hsent|]. split; [exact Hstatus | exact Htimer].
Defined.

(** ** Transport failures *)

(** C4. A call of [pollPaymentStatus] that still has budget and whose
    status query fails sends that one query, sets the status [error] and
    leaves no callback pending: the page makes no further transition, so
    the query is not retried and no later attempt is scheduled.  The call
    is made while no callback is pending, as it is from the effect of the
    page and from a callback that has just run. *)
Theorem transport_failure_is_terminal
    (svc : Reconciler.SessionService) (sid : string) (attempts : nat)
    (st : Reconciler.State) :
  Reconciler.timer st = None ->
  (attempts < Reconciler.maxAttempts)%nat ->
  svc sid (Reconciler.sent st) = Reconciler.Failure ->
  let st' := Reconciler.pollPaymentStatus svc sid attempts st in
  Reconciler.paymentStatus st' = Reconciler.error /\
  Reconciler.timer st' = None /\
  Reconciler.sent st' = S (Reconciler.sent st) /\
  Reconciler.log st' =
    Reconciler.log st ++
    [Reconciler.GetStatus sid;
     Reconciler.ConsoleError "Error checking payment status:";
     Reconciler.SetPaymentStatus Reconciler.error] /\
  Reconciler.fire svc st' = None /\
  (forall st'', Reconciler.steps svc st' st'' -> st'' = st') /\
  (forall fuel, Reconciler.run fuel svc st' = st').
Proof.
  intros Ht Ha Hfail st'. subst st'.
  rewrite poll_failure by assumption.
  split; [reflexivity|]. split; [exact Ht|]. split; [reflexivity|]. split.
  - simpl. rewrite <- !app_assoc. reflexivity.
  - apply quiet_is_final. exact Ht.
Qed.

Lemma transport_failure_is_terminal_witness :
  let st' :=
    Reconciler.pollPaymentStatus (Reconciler.fails_at 0) "cs_test_a1b2c3" 0
      Reconciler.initial in
  Reconciler.paymentStatus st' = Reconciler.error /\
  Reconciler.sent st' = 1%nat /\
  Reconciler.fire (Reconciler.fails_at 0) st' = None.
Proof.
  destruct (transport_failure_is_terminal (Reconciler.fails_at 0)
              "cs_test_a1b2c3" 0 Reconciler.initial)
    as [Hstatus [_ [Hsent [_ [Hfire _]]]]].
  - reflexivity.
  - unfold Reconciler.maxAttempts. lia.
  - reflexivity.
  - split; [exact Hstatus|]. split; [exact Hsent | exact Hfire].
Defined.

(** On a page: when the first [k] replies are pending and the next one is a
    failure, the page has sent [k + 1] queries and shows [error]. *)
Corollary first_failure_ends_polling
    (svc : Reconciler.SessionService) (params : Reconciler.URLSearchParams)
    (sid : string) (k : nat) :
  Reconciler.get "session_id" params = Some sid ->
  sid <> "" ->
  (k < Reconciler.maxAttempts)%nat ->
  (forall i, (i < k)%nat -> Reconciler.pending (svc sid i) = true) ->
  svc sid k = Reconciler.Failure ->
  let final := Reconciler.run k svc (Reconciler.mount svc params) in
  Reconciler.paymentStatus final = Reconciler.error /\
  Reconciler.timer final = None /\
  Reconciler.sent final = (k + 1)%nat.
Proof.
  intros Hget Hsid Hk Hp Hfail.
  unfold Reconciler.mount, Reconciler.useEffect. rewrite Hget.
  unfold Js.falsy. destruct (String.eqb_spec sid ""); [contradiction|].
  apply (run_to_failure svc sid k 0
           (Reconciler.setSessionId sid Reconciler.initial));
    simpl; try assumption; reflexivity.
Qed.

(** ** Terminal states *)

(** C7, as stated, fails: with a session whose first five replies are
    open and whose sixth says paid, the page reaches [timeout] after 5
    queries with nothing pending; a change of location on the route then
    runs the effect again, which sends a sixth query for the same session
    and sets [success]. *)
Lemma effect_rerun_leaves_timeout :
  let svc := Polling.paid_at 5 in
  let final := Reconciler.run 5 svc (Reconciler.mount svc Reconciler.return_url) in
  Reconciler.paymentStatus final = Reconciler.timeout /\
  Reconciler.sent final = 5%nat /\
  Reconciler.timer final = None /\
  let again := Reconciler.useEffect svc Reconciler.return_url final in
  Reconciler.paymentStatus again = Reconciler.success /\
  Reconciler.sent again = 6%nat /\
  In (Reconciler.GetStatus "cs_test_a1b2c3")
     (skipn (List.length (Reconciler.log final)) (Reconciler.log again)).
Proof. vm_compute. repeat split; tauto. Qed.

(** C7, amended. In the polling chain that mounting the page starts, the
    statuses [success], [expired], [error] and [timeout] are terminal: once
    the chain has set one of them no callback is pending, the chain has no
    transition left, its status stays and it sends no further status
    query. *)
Theorem terminal_states_are_final
    (svc : Reconciler.SessionService) (params : Reconciler.URLSearchParams)
    (st : Reconciler.State) :
  Reconciler.steps svc (Reconciler.mount svc params) st ->
  In (Reconciler.paymentStatus st)
     [Reconciler.success; Reconciler.expired; Reconciler.error;
      Reconciler.timeout] ->
  Reconciler.timer st = None /\
  Reconciler.fire svc st = None /\
  (forall st', ~ Reconciler.step svc st st') /\
  (forall st', Reconciler.steps svc st st' ->
     st' = st /\
     Reconciler.paymentStatus st' = Reconciler.paymentStatus st /\
     Reconciler.sent st' = Reconciler.sent st) /\
  (forall fuel, Reconciler.run fuel svc st = st).
Proof.
  intros Hsteps Hterm.
  assert (Ht : Reconciler.timer st = None).
  { destruct (steps_consistent svc _ _ (mount_consistent svc params) Hsteps)
      as [Hc|Hc]; [exact Hc|].
    rewrite Hc in Hterm. simpl in Hterm.
    destruct Hterm as [H|[H|[H|[H|[]]]]]; discriminate H. }
  destruct (quiet_is_final svc st Ht) as [Hfire [Hstay Hrun]].
  split; [exact Ht|]. split; [exact Hfire|]. split.
  - intros st' Hstep. unfold Reconciler.step in Hstep. congruence.
  - split; [|exact Hrun].
    intros st' Hs. rewrite (Hstay st' Hs). repeat split.
Qed.

Lemma terminal_states_are_final_witness :
  let st :=
    Reconciler.run 5 Reconciler.always_open
      (Reconciler.mount Reconciler.always_open Reconciler.return_url) in
  Reconciler.paymentStatus st = Reconciler.timeout /\
  Reconciler.fire Reconciler.always_open st = None.
Proof.
  split; [reflexivity|].
  apply (terminal_states_are_final Reconciler.always_open
           Reconciler.return_url).
  - apply run_steps.
  - simpl. tauto.
Defined.

(** ** Pages without a session *)

(** C8. When the parameters of the location have no [session_id], mounting
    the page calls nothing: no status query is sent, no callback is set,
    and the page stays in its initial state whatever happens later. *)
Theorem no_session_id_never_polls
    (svc : Reconciler.SessionService) (params : Reconciler.URLSearchParams) :
  (forall v, ~ In ("session_id", v) params) ->
  Reconciler.mount svc params = Reconciler.initial /\
  forall st,
    Reconciler.steps svc (Reconciler.mount svc params) st ->
    st = Reconciler.initial /\
    Reconciler.sent st = 0%nat /\
    Reconciler.log st = [] /\
    Reconciler.timer st = None /\
    Reconciler.sessionId st = None.
Proof.
  intros Habs.
  assert (Hm : Reconciler.mount svc params = Reconciler.initial).
  { unfold Reconciler.mount, Reconciler.useEffect.
    rewrite (get_absent "session_id" params Habs). reflexivity. }
  split; [exact Hm|].
  intros st Hsteps. rewrite Hm in Hsteps.
  destruct (quiet_is_final svc Reconciler.initial eq_refl) as [_ [Hstay _]].
  rewrite (Hstay st Hsteps). repeat split.
Qed.

Lemma no_session_id_never_polls_witness :
  Reconciler.mount Reconciler.always_open [("utm_source", "mail")]
    = Reconciler.initial.
Proof.
  destruct (no_session_id_never_polls Reconciler.always_open
              [("utm_source", "mail")]) as [Hmount _].
  - intros v [H|[]]. discriminate H.
  - exact Hmount.
Defined.

(** * Properties of the checkout initiator *)

(** C9. [handleCheckout] called with an empty cart or an empty email
    returns at once: the state is untouched and nothing is done, so no
    request goes to the session service. *)
Theorem invalid_checkout_sends_nothing
    (origin : string) (service : Checkout.SessionService)
    (st : Checkout.State) :
  Checkout.cartItems st = [] \/ Checkout.customerEmail st = "" ->
  Checkout.handleCheckout origin service st = (st, []) /\
  existsb Checkout.is_post (snd (Checkout.handleCheckout origin service st))
    = false.
Proof.
  intros Hinvalid.
  assert (H : Checkout.handleCheckout origin service st = (st, [])).
  { unfold Checkout.handleCheckout.
    destruct Hinvalid as [Hc|He]; [rewrite Hc | rewrite He].
    - simpl. rewrite orb_true_r. reflexivity.
    - reflexivity. }
  rewrite H. split; reflexivity.
Qed.

Lemma invalid_checkout_sends_nothing_witness :
  Checkout.handleCheckout "https://spicebazaar.example"
    (fun _ => Checkout.Resolved (Some "https://pay.example/c/1"))
    (Checkout.sidebar "")
  = (Checkout.sidebar "", []).
Proof.
  apply (invalid_checkout_sends_nothing "https://spicebazaar.example"
           (fun _ => Checkout.Resolved (Some "https://pay.example/c/1"))
           (Checkout.sidebar "")).
  right. reflexivity.
Defined.

(** C10. [handleCheckout] leaves the cart as it found it, whatever the
    session service does: the state after the call is the state before it,
    or that state with [isCheckingOut] set to false. *)
Theorem checkout_preserves_cart
    (origin : string) (service : Checkout.SessionService)
    (st : Checkout.State) :
  let st' := fst (Checkout.handleCheckout origin service st) in
  Checkout.cartItems st' = Checkout.cartItems st /\
  Checkout.cartOpen st' = Checkout.cartOpen st /\
  Checkout.customerEmail st' = Checkout.customerEmail st /\
  (st' = st \/ st' = Checkout.setIsCheckingOut false st).
Proof.
  unfold Checkout.handleCheckout.
  destruct (Js.falsy (Checkout.customerEmail st)
            || (List.length (Checkout.cartItems st) =? 0)%nat); simpl.
  - repeat split. left. reflexivity.
  - repeat split. right. reflexivity.
Qed.

(** * How failures are shown *)

(** C2, as stated, fails: [handleCheckout] on an empty email does and
    shows nothing, and the page renders nothing at all for the statuses
    [timeout] and [expired]. *)
Lemma failures_not_all_reported :
  snd (Checkout.handleCheckout "https://spicebazaar.example"
         (fun _ => Checkout.Rejected) (Checkout.sidebar "")) = [] /\
  Reconciler.render Reconciler.timeout = [] /\
  Reconciler.render Reconciler.expired = [] /\
  Reconciler.reports (Reconciler.render Reconciler.timeout) = false /\
  Reconciler.reports (Reconciler.render Reconciler.expired) = false.
Proof. repeat split; reflexivity. Qed.

(** C2, amended. A checkout request that throws is reported with the alert
    "Checkout failed. Please try again." and the button is enabled again;
    the status [error] of the reconciler is shown with a message and the
    action "Back to Shop"; a validation rejection of [handleCheckout] is
    silent; a failed initialization is only logged and the application
    starts. *)
Theorem reported_failures :
  (forall origin service st,
      Checkout.cartItems st <> [] ->
      Checkout.customerEmail st <> "" ->
      service (Checkout.mkRequest
                 (Checkout.checkoutItems (Checkout.cartItems st))
                 (Checkout.customerEmail st) origin) = Checkout.Rejected ->
      let r := Checkout.handleCheckout origin service st in
      In (Checkout.Alert "Checkout failed. Please try again.") (snd r) /\
      Checkout.isCheckingOut (fst r) = false) /\
  (In (Reconciler.Heading "Payment Error")
      (Reconciler.render Reconciler.error) /\
   In (Reconciler.Paragraph
         "There was an error processing your payment. Please try again.")
      (Reconciler.render Reconciler.error) /\
   In (Reconciler.Button "Back to Shop" "/")
      (Reconciler.render Reconciler.error) /\
   Reconciler.reports (Reconciler.render Reconciler.error) = true) /\
  (forall origin service st,
      Checkout.cartItems st = [] \/ Checkout.customerEmail st = "" ->
      snd (Checkout.handleCheckout origin service st) = []) /\
  App.initializeApp false =
    (true, [App.PostInitProducts; App.ConsoleError "Failed to initialize app:"]).
Proof.
  split; [|split; [|split]].
  - intros origin service st Hcart Hemail Hrej.
    unfold Checkout.handleCheckout.
    unfold Js.falsy.
    destruct (String.eqb_spec (Checkout.customerEmail st) "");
      [contradiction|].
    assert (Hlen : (List.length (Checkout.cartItems st) =? 0)%nat = false)
      by (destruct (Checkout.cartItems st); [contradiction | reflexivity]).
    rewrite Hlen. simpl orb. cbv iota. rewrite Hrej.
    split; [simpl; tauto | reflexivity].
  - simpl. repeat split; tauto.
  - intros origin service st Hinvalid.
    unfold Checkout.handleCheckout.
    destruct Hinvalid as [Hc|He]; [rewrite Hc | rewrite He].
    + simpl. rewrite orb_true_r. reflexivity.
    + reflexivity.
  - reflexivity.
Qed.

Lemma reported_failures_witness :
  In (Checkout.Alert "Checkout failed. Please try again.")
     (snd (Checkout.handleCheckout "https://spicebazaar.example"
             (fun _ => Checkout.Rejected)
             (Checkout.sidebar "asha@example.com"))) /\
  snd (Checkout.handleCheckout "https://spicebazaar.example"
         (fun _ => Checkout.Rejected) (Checkout.sidebar "")) = [].
Proof.
  destruct reported_failures as [Hthrow [_ [Hsilent _]]].
  split.
  - apply (Hthrow "https://spicebazaar.example" (fun _ => Checkout.Rejected)
             (Checkout.sidebar "asha@example.com")).
    + discriminate.
    + discriminate.
    + reflexivity.
  - apply (Hsilent "https://spicebazaar.example" (fun _ => Checkout.Rejected)
             (Checkout.sidebar "")).
    right. reflexivity.
Defined.

(** * Further properties of the cart store *)

Section CartTotals.

Import Cart.

Lemma fold_quantity (cart : list CartItem) :
  forall acc,
    fold_left (fun total item => total + quantity item) cart acc
    = acc + sum (map quantity cart).
Proof.
  induction cart as [|a cart IH]; intros acc; simpl; [lia|].
  rewrite IH. lia.
Qed.

Lemma getTotalItems_sum cart : getTotalItems cart = sum (map quantity cart).
Proof. unfold getTotalItems. rewrite fold_quantity. lia. Qed.

Lemma sum_app l1 l2 : sum (l1 ++ l2) = sum l1 + sum l2.
Proof. induction l1 as [|x l1 IH]; simpl; [reflexivity | rewrite IH; lia]. Qed.

Lemma sum_permutation l1 l2 : Permutation l1 l2 -> sum l1 = sum l2.
Proof.
  induction 1 as [ | x l l' _ IH | x y l | l l' l'' _ IH1 _ IH2 ]; simpl;
    [reflexivity | rewrite IH; reflexivity | lia | congruence].
Qed.

(** A rewriting of the lines of a product the cart lacks changes nothing. *)
Lemma map_absent productId (f : CartItem -> CartItem) cart :
  ~ In productId (ids cart) ->
  map (fun item => if product_id item =? productId then f item else item) cart
  = cart.
Proof.
  induction cart as [|a cart IH]; simpl; intros Hn; [reflexivity|].
  destruct (String.eqb_spec (product_id a) productId) as [E|N].
  - exfalso. apply Hn. left. exact E.
  - f_equal. apply IH. intros H. apply Hn. right. exact H.
Qed.

Lemma filter_absent productId cart :
  ~ In productId (ids cart) -> removeFromCart productId cart = cart.
Proof.
  unfold removeFromCart.
  induction cart as [|a cart IH]; simpl; intros Hn; [reflexivity|].
  destruct (String.eqb_spec (product_id a) productId) as [E|N]; simpl.
  - exfalso. apply Hn. left. exact E.
  - f_equal. apply IH. intros H. apply Hn. right. exact H.
Qed.

Lemma quantity_of_absent productId cart :
  ~ In productId (ids cart) -> quantity_of productId cart = 0.
Proof.
  intros Hn. rewrite quantity_of_lines, (lines_nil _ _ Hn). reflexivity.
Qed.

(** On a cart with distinct identifiers, rewriting the quantity of the
    lines of a product moves the sum of the quantities by the change of the
    one line of the product. *)
Lemma sum_map_present productId (g : Z -> Z) cart :
  NoDup (ids cart) ->
  In productId (ids cart) ->
  sum (map quantity
         (map (fun item => if product_id item =? productId
                           then with_quantity item (g (quantity item))
                           else item) cart))
  = sum (map quantity cart) - quantity_of productId cart
    + g (quantity_of productId cart).
Proof.
  induction cart as [|a cart IH]; simpl; intros Hu Hin; [contradiction|].
  inversion Hu as [|x l Hnotin Hrest]; subst.
  unfold quantity_of. simpl.
  destruct (String.eqb_spec (product_id a) productId) as [E|N]; simpl.
  - subst productId. rewrite (map_absent _ _ _ Hnotin). lia.
  - destruct Hin as [Hin|Hin]; [contradiction|].
    rewrite (IH Hrest Hin). unfold quantity_of. lia.
Qed.

Lemma sum_filter_present productId cart :
  NoDup (ids cart) ->
  sum (map quantity (removeFromCart productId cart))
  = sum (map quantity cart) - quantity_of productId cart.
Proof.
  unfold removeFromCart.
  induction cart as [|a cart IH]; simpl; intros Hu; [reflexivity|].
  inversion Hu as [|x l Hnotin Hrest]; subst.
  unfold quantity_of. simpl.
  destruct (String.eqb_spec (product_id a) productId) as [E|N]; simpl.
  - subst productId. fold (removeFromCart (product_id a) cart).
    rewrite (filter_absent _ _ Hnotin). lia.
  - rewrite (IH Hrest). unfold quantity_of. lia.
Qed.

Lemma find_some_in productId cart item :
  find (fun it => product_id it =? productId) cart = Some item ->
  In productId (ids cart).
Proof.
  intros Hf. apply find_some in Hf. destruct Hf as [Hin Heq].
  apply String.eqb_eq in Heq. subst productId.
  unfold ids. apply in_map. exact Hin.
Qed.

(** The lines of a product are untouched by a rewriting of the lines of
    another product. *)
Lemma lines_map_other productId other (f : CartItem -> CartItem) cart :
  other <> productId ->
  (forall item, product_id (f item) = product_id item) ->
  lines other
    (map (fun item => if product_id item =? productId then f item else item)
       cart)
  = lines other cart.
Proof.
  intros Hne Hf. unfold lines.
  induction cart as [|a cart IH]; simpl; [reflexivity|].
  destruct (String.eqb_spec (product_id a) productId) as [E|N].
  - rewrite Hf.
    destruct (String.eqb_spec (product_id a) other) as [E'|N'];
      [congruence | exact IH].
  - destruct (product_id a =? other); [f_equal|]; exact IH.
Qed.

Lemma lines_remove_other productId other cart :
  other <> productId ->
  lines other (removeFromCart productId cart) = lines other cart.
Proof.
  intros Hne. unfold lines, removeFromCart.
  induction cart as [|a cart IH]; simpl; [reflexivity|].
  destruct (String.eqb_spec (product_id a) productId) as [E|N]; simpl.
  - destruct (String.eqb_spec (product_id a) other) as [E'|N'];
      [congruence | exact IH].
  - destruct (product_id a =? other); [f_equal|]; exact IH.
Qed.

Lemma not_in_ids_remove productId cart :
  ~ In productId (ids (removeFromCart productId cart)).
Proof.
  unfold ids, removeFromCart. intros Hin.
  apply in_map_iff in Hin. destruct Hin as [it [Hid Hin]].
  apply filter_In in Hin. destruct Hin as [_ Hneg].
  rewrite Hid, String.eqb_refl in Hneg. discriminate.
Qed.

(** In a cart with distinct identifiers an identifier names one item. *)
Lemma unique_item cart a b :
  NoDup (ids cart) -> In a cart -> In b cart ->
  product_id a = product_id b -> a = b.
Proof.
  induction cart as [|c cart IH]; simpl; intros Hu Ha Hb Heq; [contradiction|].
  inversion Hu as [|x l Hnotin Hrest]; subst.
  destruct Ha as [Ha|Ha], Hb as [Hb|Hb].
  - congruence.
  - subst c. exfalso. apply Hnotin. rewrite Heq. apply in_map. exact Hb.
  - subst c. exfalso. apply Hnotin. rewrite <- Heq. apply in_map. exact Ha.
  - exact (IH Hrest Ha Hb Heq).
Qed.

Lemma with_quantity_same item : with_quantity item (quantity item) = item.
Proof. destruct item; reflexivity. Qed.

End CartTotals.

Section NumberTotals.

Import Cart.

Lemma sum_counts cart : JsCart.counts cart -> 0 <= sum (map quantity cart).
Proof.
  induction cart as [|a cart IH]; simpl; intros Hc; [lia|].
  assert (0 <= quantity a) by (apply Hc; left; reflexivity).
  assert (0 <= sum (map quantity cart))
    by (apply IH; intros it Hin; apply Hc; right; exact Hin).
  lia.
Qed.

Lemma quantity_le_total cart item :
  JsCart.counts cart -> In item cart -> quantity item <= getTotalItems cart.
Proof.
  rewrite getTotalItems_sum.
  induction cart as [|a cart IH]; simpl; intros Hc Hin; [contradiction|].
  assert (Ha : 0 <= quantity a) by (apply Hc; left; reflexivity).
  assert (Hrest : JsCart.counts cart)
    by (intros it Hit; apply Hc; right; exact Hit).
  pose proof (sum_counts cart Hrest) as Hs.
  destruct Hin as [Hin|Hin]; [subst a; lia|].
  specialize (IH Hrest Hin). lia.
Qed.

Lemma fold_on_numbers cart :
  forall acc,
    0 <= acc ->
    JsCart.counts cart ->
    acc + sum (map quantity cart) <= Js.MAX_SAFE_INTEGER ->
    fold_left (fun total item => (total + JsCart.quantity item)%float)
      (JsCart.of_cart cart) (Js.number_of_Z acc)
    = Js.number_of_Z (acc + sum (map quantity cart)).
Proof.
  induction cart as [|a cart IH]; intros acc Hacc Hc Hmax; simpl.
  - rewrite Z.add_0_r. reflexivity.
  - assert (Ha : 0 <= quantity a) by (apply Hc; left; reflexivity).
    assert (Hrest : JsCart.counts cart)
      by (intros it Hit; apply Hc; right; exact Hit).
    pose proof (sum_counts cart Hrest) as Hs.
    simpl sum in Hmax.
    rewrite add_exact by lia.
    rewrite IH by (assumption || lia). f_equal. lia.
Qed.

(** [getTotalItems()] on numbers is the number of the integer total when
    the quantities are non-negative and the total stays within
    [Js.MAX_SAFE_INTEGER]. *)
Lemma getTotalItems_on_numbers cart :
  JsCart.counts cart ->
  getTotalItems cart <= Js.MAX_SAFE_INTEGER ->
  JsCart.getTotalItems (JsCart.of_cart cart)
  = Js.number_of_Z (getTotalItems cart).
Proof.
  intros Hc Hmax. rewrite getTotalItems_sum in *.
  unfold JsCart.getTotalItems.
  change 0%float with (Js.number_of_Z 0).
  rewrite fold_on_numbers by (assumption || lia). reflexivity.
Qed.

Lemma fold_left_map {A B C} (f : A -> B -> A) (g : C -> B) l :
  forall a, fold_left f (map g l) a = fold_left (fun a x => f a (g x)) l a.
Proof. induction l as [|x l IH]; intros a; simpl; [reflexivity | apply IH]. Qed.

Lemma getTotalPrice_on_numbers cart :
  JsCart.getTotalPrice (JsCart.of_cart cart) = getTotalPrice cart.
Proof.
  unfold JsCart.getTotalPrice, JsCart.of_cart, getTotalPrice.
  rewrite fold_left_map. reflexivity.
Qed.

Lemma counts_permutation cart cart' :
  Permutation cart cart' -> JsCart.counts cart -> JsCart.counts cart'.
Proof.
  intros Hp Hc item Hin. apply Hc.
  apply (Permutation_in item (Permutation_sym Hp)). exact Hin.
Qed.

Lemma counts_addToCart product q cart :
  0 <= q -> JsCart.counts cart -> JsCart.counts (addToCart product q cart).
Proof.
  intros Hq Hc item Hin. unfold addToCart in Hin.
  destruct (find _ cart).
  - apply in_map_iff in Hin. destruct Hin as [it [Heq Hin]].
    specialize (Hc it Hin).
    destruct (product_id it =? Product.id product); subst item; simpl; lia.
  - apply in_app_or in Hin. destruct Hin as [Hin|[Hin|[]]].
    + exact (Hc item Hin).
    + subst item. exact Hq.
Qed.

Lemma counts_removeFromCart productId cart :
  JsCart.counts cart -> JsCart.counts (removeFromCart productId cart).
Proof.
  intros Hc item Hin. unfold removeFromCart in Hin.
  apply filter_In in Hin. exact (Hc item (proj1 Hin)).
Qed.

Lemma counts_updateQuantity productId q cart :
  JsCart.counts cart -> JsCart.counts (updateQuantity productId q cart).
Proof.
  intros Hc. unfold updateQuantity.
  destruct (Z.leb_spec q 0); [apply counts_removeFromCart; exact Hc|].
  intros item Hin. apply in_map_iff in Hin. destruct Hin as [it [Heq Hin]].
  specialize (Hc it Hin).
  destruct (product_id it =? productId); subst item; simpl; lia.
Qed.

Lemma quantity_of_le_total productId cart :
  JsCart.counts cart ->
  0 <= quantity_of productId cart <= getTotalItems cart.
Proof.
  intros Hc. unfold quantity_of.
  destruct (find _ cart) as [item|] eqn:Hf.
  - apply find_some in Hf. destruct Hf as [Hin _].
    split; [apply Hc; exact Hin | apply quantity_le_total; assumption].
  - rewrite getTotalItems_sum. pose proof (sum_counts cart Hc). lia.
Qed.

End NumberTotals.

(** X1. When the quantities of a cart are non-negative integers whose sum
    does not exceed [Js.MAX_SAFE_INTEGER], the number of items that
    [getTotalItems()] computes on numbers is that sum; it is then the same
    for every reordering of the cart, and the total of two carts put
    together is the sum of their totals. *)
Theorem getTotalItems_order_free (cart cart' : list Cart.CartItem) :
  Permutation cart cart' ->
  JsCart.counts cart ->
  Cart.getTotalItems cart <= Js.MAX_SAFE_INTEGER ->
  Cart.getTotalItems cart = Cart.sum (map Cart.quantity cart) /\
  Cart.getTotalItems cart = Cart.getTotalItems cart' /\
  JsCart.getTotalItems (JsCart.of_cart cart)
  = Js.number_of_Z (Cart.sum (map Cart.quantity cart)) /\
  JsCart.getTotalItems (JsCart.of_cart cart)
  = JsCart.getTotalItems (JsCart.of_cart cart') /\
  forall more,
    JsCart.counts more ->
    Cart.getTotalItems cart + Cart.getTotalItems more
      <= Js.MAX_SAFE_INTEGER ->
    JsCart.getTotalItems (JsCart.of_cart (cart ++ more))
    = (JsCart.getTotalItems (JsCart.of_cart cart)
       + JsCart.getTotalItems (JsCart.of_cart more))%float.
Proof.
  intros Hperm Hc Hmax.
  assert (Hsame : Cart.getTotalItems cart = Cart.getTotalItems cart').
  { rewrite !getTotalItems_sum. apply sum_permutation.
    apply Permutation_map. exact Hperm. }
  split; [apply getTotalItems_sum|]. split; [exact Hsame|]. split.
  - rewrite getTotalItems_on_numbers by assumption.
    rewrite getTotalItems_sum. reflexivity.
  - split.
    + rewrite !getTotalItems_on_numbers;
        try assumption; try (rewrite <- Hsame; exact Hmax);
        try (apply (counts_permutation cart cart'); assumption).
      rewrite Hsame. reflexivity.
    + intros more Hmore Hboth.
      assert (Happ : Cart.getTotalItems (cart ++ more)
                     = Cart.getTotalItems cart + Cart.getTotalItems more).
      { rewrite !getTotalItems_sum, map_app. apply sum_app. }
      pose proof (sum_counts cart Hc) as H1.
      pose proof (sum_counts more Hmore) as H2.
      rewrite <- !getTotalItems_sum in *.
      rewrite !getTotalItems_on_numbers; try assumption; try lia.
      * rewrite Happ. symmetry. apply add_exact; lia.
      * intros item Hin. apply in_app_or in Hin.
        destruct Hin as [Hin|Hin]; [apply Hc | apply Hmore]; exact Hin.
Qed.

Lemma getTotalItems_order_free_witness :
  JsCart.getTotalItems
    (JsCart.of_cart
       (Cart.addToCart Cart.turmeric 1 (Cart.addToCart Cart.chili 2 [])))
  = JsCart.getTotalItems
      (JsCart.of_cart
         (Cart.addToCart Cart.chili 2 (Cart.addToCart Cart.turmeric 1 []))).
Proof.
  destruct (getTotalItems_order_free
              (Cart.addToCart Cart.turmeric 1 (Cart.addToCart Cart.chili 2 []))
              (Cart.addToCart Cart.chili 2 (Cart.addToCart Cart.turmeric 1 [])))
    as [_ [_ [_ [Hsame _]]]].
  - apply perm_swap.
  - intros item [<-|[<-|[]]]; simpl; lia.
  - vm_compute. discriminate.
  - exact Hsame.
Defined.

(** X2. On a cart the store can hold whose quantities are non-negative
    integers, [addToCart(product, q)] with [q >= 0] raises the number of
    items by exactly [q], whether the product is merged into its line or
    appended, as long as the new total does not exceed
    [Js.MAX_SAFE_INTEGER]; this holds of the total computed on numbers. *)
Theorem getTotalItems_addToCart
    (product : Product.t) (q : Z) (cart : list Cart.CartItem) :
  Cart.reachable cart ->
  JsCart.counts cart ->
  0 <= q ->
  Cart.getTotalItems cart + q <= Js.MAX_SAFE_INTEGER ->
  Cart.getTotalItems (Cart.addToCart product q cart)
  = Cart.getTotalItems cart + q /\
  JsCart.getTotalItems
    (JsCart.addToCart product (Js.number_of_Z q) (JsCart.of_cart cart))
  = (JsCart.getTotalItems (JsCart.of_cart cart) + Js.number_of_Z q)%float.
Proof.
  intros Hreach Hc Hq Hmax. pose proof (reachable_unique cart Hreach) as Hu.
  assert (Hz : Cart.getTotalItems (Cart.addToCart product q cart)
               = Cart.getTotalItems cart + q).
  { rewrite !getTotalItems_sum. unfold Cart.addToCart.
    destruct (find _ cart) as [existing|] eqn:Hfind.
    - rewrite (sum_map_present (Product.id product) (fun n => n + q) cart Hu
                 (find_some_in _ _ _ Hfind)). lia.
    - rewrite map_app, sum_app. simpl. lia. }
  split; [exact Hz|].
  pose proof (sum_counts cart Hc) as Hs. rewrite <- getTotalItems_sum in Hs.
  rewrite addToCart_on_numbers.
  - rewrite !getTotalItems_on_numbers; try assumption; try lia.
    + rewrite Hz. symmetry. apply add_exact; lia.
    + apply counts_addToCart; assumption.
  - exact Hq.
  - intros item Hin _. pose proof (quantity_le_total cart item Hc Hin).
    split; [apply Hc; exact Hin | lia].
Qed.

Lemma getTotalItems_addToCart_witness :
  Cart.getTotalItems
    (Cart.addToCart Cart.chili 3 (Cart.addToCart Cart.chili 2 []))
  = Cart.getTotalItems (Cart.addToCart Cart.chili 2 []) + 3.
Proof.
  destruct (getTotalItems_addToCart Cart.chili 3
              (Cart.addToCart Cart.chili 2 [])) as [Hz _].
  - constructor. constructor.
  - intros item [<-|[]]. simpl. lia.
  - lia.
  - vm_compute. discriminate.
  - exact Hz.
Defined.

(** X3. On a cart the store can hold and that has a line of the product,
    [addToCart] keeps the identifiers in their order and keeps the name,
    image and price the line was created with, even when the product now
    passed carries other ones: only the quantity of the line changes, and
    it grows by [q] when [q] and the quantity of the line are non-negative
    and their sum does not exceed [Js.MAX_SAFE_INTEGER]; under these bounds
    the cart computed on numbers is the same. *)
Theorem addToCart_keeps_snapshot
    (product : Product.t) (q : Z) (cart : list Cart.CartItem)
    (item : Cart.CartItem) :
  Cart.reachable cart ->
  Cart.lines (Product.id product) cart = [item] ->
  0 <= q ->
  0 <= Cart.quantity item ->
  Cart.quantity item + q <= Js.MAX_SAFE_INTEGER ->
  Cart.ids (Cart.addToCart product q cart) = Cart.ids cart /\
  (exists item',
    Cart.lines (Product.id product) (Cart.addToCart product q cart) = [item']
    /\ Cart.quantity item' = Cart.quantity item + q
    /\ Cart.price item' = Cart.price item
    /\ Cart.product_name item' = Cart.product_name item
    /\ Cart.product_image item' = Cart.product_image item) /\
  JsCart.addToCart product (Js.number_of_Z q) (JsCart.of_cart cart)
  = JsCart.of_cart (Cart.addToCart product q cart).
Proof.
  intros Hreach Hl Hq H0 Hmax.
  pose proof (reachable_unique cart Hreach) as Hu. split; [|split].
  - destruct (ids_addToCart product q cart) as [E | [Hn _]]; [exact E|].
    rewrite (lines_nil _ _ Hn) in Hl. discriminate.
  - exists (Cart.with_quantity item (Cart.quantity item + q)).
    split; [apply lines_addToCart_present; assumption|].
    repeat split.
  - apply addToCart_on_numbers; [exact Hq|].
    intros it Hin Hid.
    assert (Hit : In it (Cart.lines (Product.id product) cart)).
    { apply filter_In. split; [exact Hin|]. apply String.eqb_eq. exact Hid. }
    rewrite Hl in Hit. destruct Hit as [<-|[]]. split; assumption.
Qed.

Lemma addToCart_keeps_snapshot_witness :
  let dearer :=
    Product.mk "chili" "Chili Powder XL" "/img/xl.jpg" (Cart.cents 99) in
  exists item',
    Cart.lines "chili"
      (Cart.addToCart dearer 1 (Cart.addToCart Cart.chili 2 [])) = [item']
    /\ Cart.quantity item' = 2 + 1
    /\ Cart.price item' = Cart.cents 10.
Proof.
  intros dearer.
  destruct (addToCart_keeps_snapshot dearer 1 (Cart.addToCart Cart.chili 2 [])
              (Cart.mkItem "chili" "Chili Powder" "/img/chili.jpg" 2
                 (Cart.cents 10)))
    as [_ [[item' [H1 [H2 [H3 _]]]] _]].
  - constructor. constructor.
  - reflexivity.
  - lia.
  - simpl. lia.
  - vm_compute. discriminate.
  - exists item'. split; [exact H1|]. split; [exact H2 | exact H3].
Defined.

(** X4. [addToCart] never touches the lines of another product, and a
    product the cart lacks is appended after all the lines of the cart with
    the data of the product and the quantity given. *)
Theorem addToCart_frame
    (product : Product.t) (q : Z) (cart : list Cart.CartItem) :
  (forall other,
      other <> Product.id product ->
      Cart.lines other (Cart.addToCart product q cart)
      = Cart.lines other cart) /\
  (~ In (Product.id product) (Cart.ids cart) ->
   Cart.addToCart product q cart
   = cart ++ [Cart.mkItem (Product.id product) (Product.name product)
                (Product.image_url product) q (Product.price product)]).
Proof.
  split.
  - intros other Hne. unfold Cart.addToCart.
    destruct (find _ cart).
    + apply lines_map_other; [exact Hne | reflexivity].
    + rewrite lines_app. simpl.
      destruct (String.eqb_spec (Product.id product) other);
        [congruence | apply app_nil_r].
  - intros Hn. unfold Cart.addToCart.
    destruct (find _ cart) as [existing|] eqn:Hfind; [|reflexivity].
    exfalso. exact (Hn (find_some_in _ _ _ Hfind)).
Qed.

Lemma addToCart_frame_witness :
  Cart.lines "chili"
    (Cart.addToCart Cart.turmeric 1 (Cart.addToCart Cart.chili 2 []))
  = Cart.lines "chili" (Cart.addToCart Cart.chili 2 []).
Proof.
  destruct (addToCart_frame Cart.turmeric 1 (Cart.addToCart Cart.chili 2 []))
    as [Hother _].
  apply Hother. discriminate.
Defined.

(** X5. [removeFromCart(id)] leaves no line of [id], leaves the lines of
    every other product as they were, and removing twice is removing
    once. *)
Theorem removeFromCart_effect (productId : string) (cart : list Cart.CartItem) :
  ~ In productId (Cart.ids (Cart.removeFromCart productId cart)) /\
  Cart.lines productId (Cart.removeFromCart productId cart) = [] /\
  (forall other,
      other <> productId ->
      Cart.lines other (Cart.removeFromCart productId cart)
      = Cart.lines other cart) /\
  Cart.removeFromCart productId (Cart.removeFromCart productId cart)
  = Cart.removeFromCart productId cart.
Proof.
  pose proof (not_in_ids_remove productId cart) as Hn.
  split; [exact Hn|]. split; [apply lines_nil; exact Hn|]. split.
  - intros other Hne. apply lines_remove_other. exact Hne.
  - apply filter_absent. exact Hn.
Qed.

Lemma removeFromCart_effect_witness :
  let cart := Cart.addToCart Cart.turmeric 1 (Cart.addToCart Cart.chili 2 []) in
  Cart.lines "turmeric" (Cart.removeFromCart "chili" cart)
  = Cart.lines "turmeric" cart.
Proof.
  intros cart.
  destruct (removeFromCart_effect "chili" cart) as [_ [_ [Hother _]]].
  apply Hother. discriminate.
Defined.

(** X6. On a product the cart does not hold, [removeFromCart] and
    [updateQuantity], with any quantity, return the cart unchanged. *)
Theorem absent_product_is_noop
    (productId : string) (q : Z) (cart : list Cart.CartItem) :
  ~ In productId (Cart.ids cart) ->
  Cart.removeFromCart productId cart = cart /\
  Cart.updateQuantity productId q cart = cart.
Proof.
  intros Hn. split; [apply filter_absent; exact Hn|].
  unfold Cart.updateQuantity.
  destruct (q <=? 0)%Z; [apply filter_absent | apply map_absent]; exact Hn.
Qed.

Lemma absent_product_is_noop_witness :
  let cart := Cart.addToCart Cart.chili 2 [] in
  Cart.removeFromCart "cumin" cart = cart /\
  Cart.updateQuantity "cumin" 4 cart = cart.
Proof.
  intros cart. apply (absent_product_is_noop "cumin" 4 cart).
  intros [H|[]]. discriminate H.
Defined.

(** X7. On a cart the store can hold whose quantities are non-negative
    integers with a total not above [Js.MAX_SAFE_INTEGER], removing a
    product lowers the number of items by the quantity the cart recorded
    for it, and setting the quantity of a product of the cart to [q >= 1]
    replaces that quantity by [q] in the number of items, as long as the
    new total does not exceed [Js.MAX_SAFE_INTEGER]; the totals computed on
    numbers are the numbers of these integers. *)
Theorem getTotalItems_after_change
    (productId : string) (q : Z) (cart : list Cart.CartItem) :
  Cart.reachable cart ->
  JsCart.counts cart ->
  Cart.getTotalItems cart <= Js.MAX_SAFE_INTEGER ->
  (Cart.getTotalItems (Cart.removeFromCart productId cart)
   = Cart.getTotalItems cart - Cart.quantity_of productId cart /\
   JsCart.getTotalItems
     (JsCart.removeFromCart productId (JsCart.of_cart cart))
   = Js.number_of_Z
       (Cart.getTotalItems cart - Cart.quantity_of productId cart)) /\
  (1 <= q ->
   In productId (Cart.ids cart) ->
   Cart.getTotalItems cart - Cart.quantity_of productId cart + q
     <= Js.MAX_SAFE_INTEGER ->
   Cart.getTotalItems (Cart.updateQuantity productId q cart)
   = Cart.getTotalItems cart - Cart.quantity_of productId cart + q /\
   JsCart.getTotalItems
     (JsCart.updateQuantity productId (Js.number_of_Z q)
        (JsCart.of_cart cart))
   = Js.number_of_Z
       (Cart.getTotalItems cart - Cart.quantity_of productId cart + q)).
Proof.
  intros Hreach Hc Hmax. pose proof (reachable_unique cart Hreach) as Hu.
  pose proof (quantity_of_le_total productId cart Hc) as Hold.
  assert (Hrm : Cart.getTotalItems (Cart.removeFromCart productId cart)
                = Cart.getTotalItems cart - Cart.quantity_of productId cart).
  { rewrite !getTotalItems_sum. apply sum_filter_present. exact Hu. }
  split.
  - split; [exact Hrm|].
    rewrite removeFromCart_on_numbers, getTotalItems_on_numbers.
    + rewrite Hrm. reflexivity.
    + apply counts_removeFromCart. exact Hc.
    + rewrite Hrm. lia.
  - intros Hq Hin Hnew.
    assert (Hset : Cart.getTotalItems (Cart.updateQuantity productId q cart)
                   = Cart.getTotalItems cart
                     - Cart.quantity_of productId cart + q).
    { rewrite !getTotalItems_sum. unfold Cart.updateQuantity.
      destruct (Z.leb_spec q 0); [lia|].
      apply (sum_map_present productId (fun _ => q) cart Hu Hin). }
    split; [exact Hset|].
    rewrite updateQuantity_on_numbers, getTotalItems_on_numbers.
    + rewrite Hset. reflexivity.
    + apply counts_updateQuantity. exact Hc.
    + rewrite Hset. exact Hnew.
    + unfold Js.MAX_SAFE_INTEGER in *. lia.
Qed.

Lemma getTotalItems_after_change_witness :
  let cart := Cart.addToCart Cart.turmeric 1 (Cart.addToCart Cart.chili 2 []) in
  Cart.getTotalItems (Cart.removeFromCart "chili" cart) = 3 - 2 /\
  Cart.getTotalItems (Cart.updateQuantity "chili" 7 cart) = 3 - 2 + 7.
Proof.
  intros cart.
  destruct (getTotalItems_after_change "chili" 7 cart) as [[Hrm _] Hset].
  - constructor. constructor. constructor.
  - intros item [<-|[<-|[]]]; simpl; lia.
  - vm_compute. discriminate.
  - split; [exact Hrm|].
    destruct Hset as [Hz _]; [lia | simpl; tauto | vm_compute; discriminate
                              | exact Hz].
Defined.

(** X18. The cart store on numbers, as the source computes it, and the
    cart store on integers agree: [removeFromCart] always;
    [updateQuantity] for every integer quantity within
    [Js.MAX_SAFE_INTEGER], of either sign; [addToCart] when the quantity
    added and the quantities of the lines of the product are non-negative
    and each sum stays within [Js.MAX_SAFE_INTEGER]. *)
Theorem cart_store_on_numbers (cart : list Cart.CartItem) :
  (forall productId,
      JsCart.removeFromCart productId (JsCart.of_cart cart)
      = JsCart.of_cart (Cart.removeFromCart productId cart)) /\
  (forall productId q,
      - Js.MAX_SAFE_INTEGER <= q <= Js.MAX_SAFE_INTEGER ->
      JsCart.updateQuantity productId (Js.number_of_Z q) (JsCart.of_cart cart)
      = JsCart.of_cart (Cart.updateQuantity productId q cart)) /\
  (forall product q,
      0 <= q ->
      (forall item,
          In item cart -> Cart.product_id item = Product.id product ->
          0 <= Cart.quantity item /\
          Cart.quantity item + q <= Js.MAX_SAFE_INTEGER) ->
      JsCart.addToCart product (Js.number_of_Z q) (JsCart.of_cart cart)
      = JsCart.of_cart (Cart.addToCart product q cart)).
Proof.
  split; [|split].
  - intros productId. apply removeFromCart_on_numbers.
  - intros productId q Hq. apply updateQuantity_on_numbers. exact Hq.
  - intros product q Hq Hsafe. apply addToCart_on_numbers; assumption.
Qed.

Lemma cart_store_on_numbers_witness :
  let cart := Cart.addToCart Cart.chili 2 [] in
  JsCart.updateQuantity "chili" (Js.number_of_Z (-1)) (JsCart.of_cart cart)
  = JsCart.of_cart (Cart.updateQuantity "chili" (-1) cart) /\
  JsCart.addToCart Cart.chili (Js.number_of_Z 3) (JsCart.of_cart cart)
  = JsCart.of_cart (Cart.addToCart Cart.chili 3 cart).
Proof.
  intros cart.
  destruct (cart_store_on_numbers cart) as [_ [Hset Hadd]]. split.
  - apply Hset. unfold Js.MAX_SAFE_INTEGER. lia.
  - apply Hadd; [lia|].
    intros item [<-|[]] _. unfold Js.MAX_SAFE_INTEGER. simpl. lia.
Defined.

(** X19. The totals on numbers and on integers agree: [getTotalPrice()] on
    the numbers of a cart is the total price of the cart, and
    [getTotalItems()] on them is the number of the integer total when the
    quantities are non-negative and that total does not exceed
    [Js.MAX_SAFE_INTEGER]. *)
Theorem totals_on_numbers (cart : list Cart.CartItem) :
  JsCart.getTotalPrice (JsCart.of_cart cart) = Cart.getTotalPrice cart /\
  (JsCart.counts cart ->
   Cart.getTotalItems cart <= Js.MAX_SAFE_INTEGER ->
   JsCart.getTotalItems (JsCart.of_cart cart)
   = Js.number_of_Z (Cart.getTotalItems cart)).
Proof.
  split; [apply getTotalPrice_on_numbers|].
  intros Hc Hmax. apply getTotalItems_on_numbers; assumption.
Qed.

Lemma totals_on_numbers_witness :
  let cart := Cart.addToCart Cart.turmeric 1 (Cart.addToCart Cart.chili 2 []) in
  JsCart.getTotalItems (JsCart.of_cart cart) = Js.number_of_Z 3.
Proof.
  intros cart. destruct (totals_on_numbers cart) as [_ Hitems].
  apply Hitems.
  - intros item [<-|[<-|[]]]; simpl; lia.
  - vm_compute. discriminate.
Defined.

(** * The carts of a shopper *)

Section ShopperFacts.

Import Cart.
Import Shopper.

Lemma positive_addToCart product q cart :
  1 <= q -> positive cart -> positive (addToCart product q cart).
Proof.
  intros Hq Hpos item Hin. unfold addToCart in Hin.
  destruct (find _ cart).
  - apply in_map_iff in Hin. destruct Hin as [it [Heq Hin]].
    specialize (Hpos it Hin).
    destruct (product_id it =? Product.id product); subst item; simpl; lia.
  - apply in_app_or in Hin. destruct Hin as [Hin|[Hin|[]]].
    + exact (Hpos item Hin).
    + subst item. exact Hq.
Qed.

Lemma positive_removeFromCart productId cart :
  positive cart -> positive (removeFromCart productId cart).
Proof.
  intros Hpos item Hin. unfold removeFromCart in Hin.
  apply filter_In in Hin. exact (Hpos item (proj1 Hin)).
Qed.

Lemma positive_updateQuantity productId q cart :
  positive cart -> positive (updateQuantity productId q cart).
Proof.
  intros Hpos. unfold updateQuantity.
  destruct (Z.leb_spec q 0); [apply positive_removeFromCart; exact Hpos|].
  intros item Hin. apply in_map_iff in Hin. destruct Hin as [it [Heq Hin]].
  specialize (Hpos it Hin).
  destruct (product_id it =? productId); subst item; simpl; lia.
Qed.

Lemma shopping_reachable cart : Shopper.shopping cart -> reachable cart.
Proof.
  induction 1; try (constructor; assumption).
Qed.

Lemma shopping_positive cart : Shopper.shopping cart -> positive cart.
Proof.
  induction 1 as [ | product cart _ IH | item cart _ IH _ | item cart _ IH _
                   | item cart _ IH _ | cart _ _ ].
  - intros item [].
  - apply positive_addToCart; [lia | exact IH].
  - apply positive_updateQuantity; exact IH.
  - apply positive_updateQuantity; exact IH.
  - apply positive_removeFromCart; exact IH.
  - intros item [].
Qed.

Lemma positive_total cart :
  positive cart -> Z.of_nat (List.length cart) <= sum (map quantity cart).
Proof.
  induction cart as [|a cart IH]; intros Hpos; simpl sum; [simpl; lia|].
  assert (Ha : 1 <= quantity a) by (apply Hpos; left; reflexivity).
  assert (Hrest : positive cart) by (intros it Hin; apply Hpos; right; exact Hin).
  specialize (IH Hrest). simpl List.length. lia.
Qed.

(** Filtering by identifier commutes with a rewriting that keeps the
    identifiers. *)
Lemma lines_map productId (g : CartItem -> CartItem) cart :
  (forall item, product_id (g item) = product_id item) ->
  lines productId (map g cart) = map g (lines productId cart).
Proof.
  intros Hg. unfold lines.
  induction cart as [|a cart IH]; simpl; [reflexivity|].
  rewrite Hg. destruct (product_id a =? productId); simpl;
    [f_equal|]; exact IH.
Qed.

Lemma lines_of_item cart item :
  NoDup (ids cart) -> In item cart -> lines (product_id item) cart = [item].
Proof.
  induction cart as [|a cart IH]; simpl; intros Hu Hin; [contradiction|].
  inversion Hu as [|x l Hnotin Hrest]; subst.
  destruct (String.eqb_spec (product_id a) (product_id item)) as [E|N].
  - assert (a = item).
    { destruct Hin as [Hin|Hin]; [exact Hin|].
      exfalso. apply Hnotin. rewrite E. apply in_map. exact Hin. }
    subst a. f_equal. apply lines_nil. exact Hnotin.
  - destruct Hin as [Hin|Hin]; [congruence|]. exact (IH Hrest Hin).
Qed.

Lemma shopper_invariant_aux cart :
  Shopper.shopping cart -> NoDup (ids cart) /\ positive cart.
Proof.
  intros Hshop. split.
  - apply reachable_unique, shopping_reachable, Hshop.
  - apply shopping_positive, Hshop.
Qed.

End ShopperFacts.

(** X8. Every cart a shopper can build through the pages (adding from a
    product card, the [-], [+] and bin buttons of a row, clearing) has
    distinct product identifiers and only line items of quantity at least
    1: lowering a quantity to 0 removes the line. *)
Theorem shopper_invariant (cart : list Cart.CartItem) :
  Shopper.shopping cart ->
  Cart.reachable cart /\
  NoDup (Cart.ids cart) /\
  forall item, In item cart -> 1 <= Cart.quantity item.
Proof.
  intros Hshop. pose proof (shopping_reachable cart Hshop) as Hreach.
  split; [exact Hreach|]. split; [apply reachable_unique; exact Hreach|].
  exact (shopping_positive cart Hshop).
Qed.

Lemma shopper_invariant_witness :
  let line := Cart.mkItem "chili" "Chili Powder" "/img/chili.jpg" 1
                (Cart.cents 10) in
  Shopper.shopping (CartSidebar.decrement line
                      (Cart.addToCart_default Cart.chili [])) /\
  forall item,
    In item (CartSidebar.decrement line (Cart.addToCart_default Cart.chili []))
    -> 1 <= Cart.quantity item.
Proof.
  intros line.
  assert (Hshop : Shopper.shopping
                    (CartSidebar.decrement line
                       (Cart.addToCart_default Cart.chili []))).
  { apply Shopper.shop_minus.
    - apply Shopper.shop_add. apply Shopper.shop_start.
    - left. reflexivity. }
  split; [exact Hshop|].
  destruct (shopper_invariant _ Hshop) as [_ [_ Hpos]]. exact Hpos.
Defined.

(** X9. For a cart a shopper can build, the header shows no badge exactly
    when the cart is empty, and a badge shows the number of items, which is
    at least the number of line items. *)
Theorem badge_counts_items (cart : list Cart.CartItem) :
  Shopper.shopping cart ->
  (Header.badge cart = None <-> cart = []) /\
  forall n,
    Header.badge cart = Some n ->
    n = Cart.getTotalItems cart /\ Z.of_nat (List.length cart) <= n.
Proof.
  intros Hshop.
  pose proof (positive_total cart (shopping_positive cart Hshop)) as Hlen.
  rewrite <- getTotalItems_sum in Hlen.
  unfold Header.badge. split; [split|].
  - destruct (Z.ltb_spec 0 (Cart.getTotalItems cart)) as [Hlt|Hle];
      [discriminate|].
    intros _. destruct cart; [reflexivity | simpl List.length in Hlen; lia].
  - intros ->. reflexivity.
  - intros n. destruct (Z.ltb_spec 0 (Cart.getTotalItems cart)); [|discriminate].
    intros Hn. injection Hn as <-. split; [reflexivity | exact Hlen].
Qed.

Lemma badge_counts_items_witness :
  let cart :=
    Cart.addToCart_default Cart.turmeric
      (Cart.addToCart_default Cart.chili
         (Cart.addToCart_default Cart.chili [])) in
  Header.badge cart = Some 3 /\ Z.of_nat (List.length cart) <= 3.
Proof.
  intros cart. split; [reflexivity|].
  destruct (badge_counts_items cart) as [_ Hn].
  - repeat apply Shopper.shop_add. apply Shopper.shop_start.
  - exact (proj2 (Hn 3 eq_refl)).
Defined.

(** X10. The buttons of the row of an item of a shopper's cart: [-] on a
    line of quantity 1 removes the line; [-] on a larger quantity and [+]
    keep every line at its place and move the quantity of this line by one;
    and [+] followed by [-] on the row gives back the cart. *)
Theorem row_buttons (item : Cart.CartItem) (cart : list Cart.CartItem) :
  Shopper.shopping cart ->
  In item cart ->
  (Cart.quantity item = 1 ->
   CartSidebar.decrement item cart = CartSidebar.remove item cart /\
   ~ In (Cart.product_id item) (Cart.ids (CartSidebar.decrement item cart))) /\
  (2 <= Cart.quantity item ->
   Cart.ids (CartSidebar.decrement item cart) = Cart.ids cart /\
   Cart.lines (Cart.product_id item) (CartSidebar.decrement item cart)
   = [Cart.with_quantity item (Cart.quantity item - 1)]) /\
  (Cart.ids (CartSidebar.increment item cart) = Cart.ids cart /\
   Cart.lines (Cart.product_id item) (CartSidebar.increment item cart)
   = [Cart.with_quantity item (Cart.quantity item + 1)]) /\
  CartSidebar.decrement
    (Cart.with_quantity item (Cart.quantity item + 1))
    (CartSidebar.increment item cart)
  = cart.
Proof.
  intros Hshop Hin.
  destruct (shopper_invariant_aux cart Hshop) as [Hu Hpos].
  pose proof (Hpos item Hin) as Hq.
  assert (Hset : forall q, 1 <= q ->
            Cart.ids (Cart.updateQuantity (Cart.product_id item) q cart)
              = Cart.ids cart /\
            Cart.lines (Cart.product_id item)
              (Cart.updateQuantity (Cart.product_id item) q cart)
              = [Cart.with_quantity item q]).
  { intros q Hq1. unfold Cart.updateQuantity.
    destruct (Z.leb_spec q 0); [lia|]. split.
    - apply ids_map_quantity. intros it.
      destruct (Cart.product_id it =? Cart.product_id item); reflexivity.
    - rewrite lines_map.
      + rewrite (lines_of_item cart item Hu Hin). simpl.
        rewrite String.eqb_refl. reflexivity.
      + intros it.
        destruct (Cart.product_id it =? Cart.product_id item); reflexivity. }
  split; [|split; [|split]].
  - intros H1. unfold CartSidebar.decrement, CartSidebar.remove.
    assert (E : Cart.updateQuantity (Cart.product_id item)
                  (Cart.quantity item - 1) cart
                = Cart.removeFromCart (Cart.product_id item) cart).
    { unfold Cart.updateQuantity.
      destruct (Z.leb_spec (Cart.quantity item - 1) 0); [reflexivity | lia]. }
    rewrite E. split; [reflexivity | apply not_in_ids_remove].
  - intros H2. apply Hset. lia.
  - apply Hset. lia.
  - unfold CartSidebar.decrement, CartSidebar.increment, Cart.updateQuantity.
    simpl Cart.product_id. simpl Cart.quantity.
    destruct (Z.leb_spec (Cart.quantity item + 1) 0); [lia|].
    destruct (Z.leb_spec (Cart.quantity item + 1 - 1) 0); [lia|].
    replace (Cart.quantity item + 1 - 1) with (Cart.quantity item) by lia.
    rewrite map_map. rewrite <- (map_id cart) at 2.
    apply map_ext_in. intros it Hit.
    destruct (String.eqb_spec (Cart.product_id it) (Cart.product_id item))
      as [E|N].
    + simpl. rewrite E, String.eqb_refl.
      assert (it = item) by (apply (unique_item cart); assumption).
      subst it. destruct item; reflexivity.
    + destruct (String.eqb_spec (Cart.product_id it) (Cart.product_id item));
        [contradiction | reflexivity].
Qed.

Lemma row_buttons_witness :
  let line := Cart.mkItem "chili" "Chili Powder" "/img/chili.jpg" 1
                (Cart.cents 10) in
  let cart := Cart.addToCart_default Cart.chili [] in
  CartSidebar.decrement line cart = CartSidebar.remove line cart /\
  CartSidebar.decrement (Cart.with_quantity line 2)
    (CartSidebar.increment line cart) = cart.
Proof.
  intros line cart.
  destruct (row_buttons line cart) as [Hone [_ [_ Hback]]].
  - apply Shopper.shop_add. apply Shopper.shop_start.
  - left. reflexivity.
  - split; [apply Hone; reflexivity | exact Hback].
Defined.

(** * Further properties of the checkout initiator *)

Section CheckoutFacts.

Import Checkout.

Lemma falsy_false s : Js.falsy s = false <-> s <> "".
Proof.
  unfold Js.falsy. destruct (String.eqb_spec s ""); split; congruence.
Qed.

Lemma length_zero {A} (l : list A) : (List.length l =? 0)%nat = true <-> l = [].
Proof. destruct l; simpl; split; congruence. Qed.

(** The guard of [handleCheckout]. *)
Lemma guard_false st :
  Js.falsy (customerEmail st) || (List.length (cartItems st) =? 0)%nat = false
  <-> customerEmail st <> "" /\ cartItems st <> [].
Proof.
  rewrite orb_false_iff, falsy_false. split; intros [He Hc]; split; try exact He.
  - intros E. rewrite E in Hc. discriminate.
  - destruct (cartItems st); [congruence | reflexivity].
Qed.

Lemma guard_true st :
  Js.falsy (customerEmail st) || (List.length (cartItems st) =? 0)%nat = true
  <-> cartItems st = [] \/ customerEmail st = "".
Proof.
  rewrite orb_true_iff, length_zero. unfold Js.falsy.
  rewrite String.eqb_eq. tauto.
Qed.

End CheckoutFacts.

(** X11. While the checkout button is enabled, [handleCheckout] sends
    exactly one request, whatever the service then does: it carries the
    email typed, the origin, and one entry per line item of the cart, in
    cart order, with the identifier, quantity and price of the line; and
    the button is enabled again at the end. *)
Theorem checkout_sends_cart_once
    (origin : string) (service : Checkout.SessionService)
    (st : Checkout.State) :
  CartSidebar.checkoutDisabled st = false ->
  let r := Checkout.handleCheckout origin service st in
  exists body,
    filter Checkout.is_post (snd r) = [Checkout.Post body] /\
    Checkout.customer_email body = Checkout.customerEmail st /\
    Checkout.origin_url body = origin /\
    map Checkout.product_id (Checkout.items body)
      = Cart.ids (Checkout.cartItems st) /\
    map Checkout.quantity (Checkout.items body)
      = map Cart.quantity (Checkout.cartItems st) /\
    map Checkout.price (Checkout.items body)
      = map Cart.price (Checkout.cartItems st) /\
    Checkout.isCheckingOut (fst r) = false.
Proof.
  unfold CartSidebar.checkoutDisabled. intros Hen.
  apply orb_false_iff in Hen. destruct Hen as [Hguard _].
  unfold Checkout.handleCheckout. rewrite Hguard.
  exists (Checkout.mkRequest (Checkout.checkoutItems (Checkout.cartItems st))
            (Checkout.customerEmail st) origin).
  cbn [Checkout.items Checkout.customer_email Checkout.origin_url].
  split; [|split; [|split; [|split; [|split; [|split]]]]].
  - destruct (service _) as [[url|]| |]; [destruct (Js.falsy url)| | |];
      reflexivity.
  - reflexivity.
  - reflexivity.
  - unfold Checkout.checkoutItems, Cart.ids. rewrite map_map. reflexivity.
  - unfold Checkout.checkoutItems. rewrite map_map. reflexivity.
  - unfold Checkout.checkoutItems. rewrite map_map. reflexivity.
  - reflexivity.
Qed.

Lemma checkout_sends_cart_once_witness :
  exists body,
    filter Checkout.is_post
      (snd (Checkout.handleCheckout "https://spicebazaar.example"
              (fun _ => Checkout.Rejected)
              (Checkout.sidebar "asha@example.com")))
    = [Checkout.Post body] /\
    Checkout.customer_email body = "asha@example.com".
Proof.
  destruct (checkout_sends_cart_once "https://spicebazaar.example"
              (fun _ => Checkout.Rejected)
              (Checkout.sidebar "asha@example.com"))
    as [body [Hpost [Hemail _]]].
  - reflexivity.
  - exists body. split; [exact Hpost | exact Hemail].
Defined.



(** X13. [handleCheckout] does nothing at all exactly when the cart is
    empty or the email is empty, and in that case the checkout button is
    disabled: the silent return cannot be reached through the button. *)
Theorem checkout_silent_iff_invalid
    (origin : string) (service : Checkout.SessionService)
    (st : Checkout.State) :
  (snd (Checkout.handleCheckout origin service st) = [] <->
   Checkout.cartItems st = [] \/ Checkout.customerEmail st = "") /\
  (snd (Checkout.handleCheckout origin service st) = [] ->
   CartSidebar.checkoutDisabled st = true).
Proof.
  assert (Hiff : snd (Checkout.handleCheckout origin service st) = [] <->
                 Checkout.cartItems st = [] \/ Checkout.customerEmail st = "").
  { unfold Checkout.handleCheckout.
    destruct (Js.falsy (Checkout.customerEmail st)
              || (List.length (Checkout.cartItems st) =? 0)%nat) eqn:Hguard.
    - apply guard_true in Hguard. simpl. tauto.
    - apply guard_false in Hguard. simpl. split; [discriminate | tauto]. }
  split; [exact Hiff|].
  intros Hsilent. apply Hiff in Hsilent. apply guard_true in Hsilent.
  unfold CartSidebar.checkoutDisabled. rewrite Hsilent. reflexivity.
Qed.

Lemma checkout_silent_iff_invalid_witness :
  CartSidebar.checkoutDisabled (Checkout.sidebar "") = true.
Proof.
  destruct (checkout_silent_iff_invalid "https://spicebazaar.example"
              (fun _ => Checkout.Rejected) (Checkout.sidebar ""))
    as [_ Hdisabled].
  apply Hdisabled. reflexivity.
Defined.

(** * Further properties of the payment status reconciler *)

Section PollingFacts.

Import Reconciler.
Import Polling.

Variable svc : SessionService.

Lemma queries_app l l' : queries (l ++ l') = (queries l + queries l')%nat.
Proof. unfold queries. rewrite filter_app, length_app. reflexivity. Qed.

Lemma queries_nil : queries [] = 0%nat.
Proof. reflexivity. Qed.

Lemma queries_cons e l :
  queries (e :: l) = ((if is_query e then 1 else 0) + queries l)%nat.
Proof. unfold queries. simpl. destruct (is_query e); reflexivity. Qed.

Lemma outcome_terminal r :
  pending r = false -> terminal (outcome r) = true.
Proof.
  destruct r as [data|]; simpl; [|reflexivity].
  destruct (payment_status data =? "paid"); [reflexivity|].
  destruct (status data =? "expired"); [reflexivity | discriminate].
Qed.

(** A call with budget whose reply is not pending ends the polling with
    the status of the reply. *)
Lemma poll_decisive sid a st :
  (a < maxAttempts)%nat ->
  pending (svc sid (sent st)) = false ->
  let st' := pollPaymentStatus svc sid a st in
  paymentStatus st' = outcome (svc sid (sent st)) /\
  timer st' = timer st /\
  sent st' = S (sent st).
Proof.
  intros Ha Hp. unfold pollPaymentStatus.
  destruct (Nat.leb_spec maxAttempts a); [lia|].
  destruct (svc sid (sent st)) as [data|]; simpl in *.
  - destruct (payment_status data =? "paid"); [repeat split|].
    destruct (status data =? "expired"); [repeat split | discriminate].
  - repeat split.
Qed.

(** A call of the chain, made with the number of queries of the chain as
    its attempt number, keeps the bookkeeping, and either leaves nothing
    pending or has sent one more query. *)
Lemma poll_chain st0 sid st l :
  timer st = None ->
  log st = log st0 ++ l ->
  forallb (event_ok sid) l = true ->
  sent st = (sent st0 + queries l)%nat ->
  (queries l <= maxAttempts)%nat ->
  paymentStatus st = paymentStatus st0 ->
  let st' := pollPaymentStatus svc sid (queries l) st in
  chain st0 sid st' /\ (timer st' = None \/ sent st' = S (sent st)).
Proof.
  intros Ht Hlog Hok Hsent Hle Hs.
  destruct (Nat.leb_spec maxAttempts (queries l)) as [Hmax|Hlt].
  - rewrite poll_exhausted by exact Hmax.
    split; [|left; exact Ht].
    exists (l ++ [SetPaymentStatus timeout]).
    unfold setPaymentStatus; cbn [sent log timer paymentStatus].
    rewrite Hlog, <- app_assoc, queries_app, forallb_app, Hok, Ht.
    rewrite ?queries_cons, ?queries_nil. cbn [is_query andb Nat.add].
    repeat split; try lia.
  - destruct (pending (svc sid (sent st))) eqn:Hp.
    + rewrite poll_pending by assumption. rewrite Nat.add_1_r.
      assert (E1 : (1 <=? S (queries l))%nat = true) by (apply Nat.leb_le; lia).
      assert (E2 : (S (queries l) <=? maxAttempts)%nat = true)
        by (apply Nat.leb_le; lia).
      split; [|right; reflexivity].
      exists (l ++ [GetStatus sid; SetTimeout pollInterval sid (S (queries l))]).
      unfold setTimeout, axios_get; cbn [sent log timer paymentStatus].
      rewrite Hlog, <- !app_assoc, queries_app, forallb_app, Hok.
      cbn [forallb event_ok app]. rewrite Z.eqb_refl, String.eqb_refl, E1, E2.
      rewrite ?queries_cons, ?queries_nil. cbn [is_query andb Nat.add].
      rewrite Nat.add_1_r.
      repeat split; try lia; try assumption; try (f_equal; lia).
    + pose proof (poll_decisive sid (queries l) st Hlt Hp) as [H1 [H2 H3]].
      pose proof (outcome_terminal _ Hp) as Hterm.
      split; [|left; rewrite H2; exact Ht].
      unfold chain. rewrite H1, H2, H3, Ht.
      unfold pollPaymentStatus.
      destruct (Nat.leb_spec maxAttempts (queries l)); [lia|].
      destruct (svc sid (sent st)) as [data|]; cbn [pending] in Hp.
      * destruct (payment_status data =? "paid");
          [exists (l ++ [GetStatus sid; SetPaymentStatus success])
          |destruct (status data =? "expired");
             [exists (l ++ [GetStatus sid; SetPaymentStatus expired])
             |discriminate]];
          unfold setPaymentStatus, axios_get; cbn [sent log];
          rewrite Hlog, <- !app_assoc, queries_app, forallb_app, Hok;
          cbn [forallb event_ok app]; rewrite String.eqb_refl;
          rewrite ?queries_cons, ?queries_nil; cbn [is_query andb Nat.add];
          repeat split; try lia; exact Hterm.
      * exists (l ++ [GetStatus sid;
                      ConsoleError "Error checking payment status:";
                      SetPaymentStatus error]).
        unfold setPaymentStatus, consoleError, axios_get; cbn [sent log].
        rewrite Hlog, <- !app_assoc, queries_app, forallb_app, Hok.
        cbn [forallb event_ok app]. rewrite String.eqb_refl.
        rewrite ?queries_cons, ?queries_nil. cbn [is_query andb Nat.add].
        repeat split; try lia; exact Hterm.
Qed.

(** A run of the effect on a page with nothing pending starts a chain. *)
Lemma effect_chain params sid st0 :
  timer st0 = None ->
  get "session_id" params = Some sid ->
  sid <> "" ->
  chain st0 sid (useEffect svc params st0).
Proof.
  intros Ht Hget Hsid. unfold useEffect. rewrite Hget.
  unfold Js.falsy. destruct (String.eqb_spec sid ""); [contradiction|].
  apply (poll_chain st0 sid (setSessionId sid st0) [SetSessionId sid]).
  - exact Ht.
  - reflexivity.
  - simpl. rewrite String.eqb_refl. reflexivity.
  - simpl. unfold queries. simpl. lia.
  - unfold queries, maxAttempts. simpl. lia.
  - reflexivity.
Qed.

Lemma step_chain st0 sid st st' :
  chain st0 sid st -> step svc st st' ->
  chain st0 sid st' /\ (timer st' = None \/ sent st' = S (sent st)).
Proof.
  unfold step, fire. intros [l [Hlog [Hok [Hsent [Hle Ht]]]]] Hstep.
  destruct (timer st) as [t|]; [|discriminate].
  destruct Ht as [-> [Hone Hs]]. injection Hstep as <-.
  cbn [timer_sessionId timer_attempts].
  apply (poll_chain st0 sid (clearTimer st) l); assumption || reflexivity.
Qed.

Lemma steps_chain st0 sid st st' :
  chain st0 sid st -> steps svc st st' -> chain st0 sid st'.
Proof.
  intros Ht Hsteps. induction Hsteps as [st | st st1 st2 Hstep _ IH].
  - exact Ht.
  - apply IH. exact (proj1 (step_chain st0 sid _ _ Ht Hstep)).
Qed.

(** A run long enough for the attempts that are left ends with nothing
    pending. *)
Lemma run_quiesces st0 sid n :
  forall st,
    chain st0 sid st ->
    (timer st <> None -> (sent st0 + maxAttempts + 1 <= n + sent st)%nat) ->
    timer (run n svc st) = None /\ chain st0 sid (run n svc st).
Proof.
  induction n as [|n IH]; intros st Ht Hn.
  - simpl. split; [|exact Ht].
    destruct (timer st) eqn:E; [|reflexivity].
    destruct Ht as [l [_ [_ [Hsent [Hle _]]]]].
    specialize (Hn ltac:(congruence)). lia.
  - simpl. destruct (fire svc st) as [st'|] eqn:Hf.
    + destruct (step_chain st0 sid st st' Ht Hf) as [Ht' Hprog].
      apply IH; [exact Ht'|]. intros Hpending.
      destruct Hprog as [Hnone|Hsent]; [contradiction|].
      assert (Hsome : timer st <> None).
      { unfold fire in Hf. destruct (timer st); [discriminate | discriminate]. }
      specialize (Hn Hsome). lia.
    + split; [|exact Ht].
      unfold fire in Hf. destruct (timer st); [discriminate | reflexivity].
Qed.

(** On a location without a usable session identifier the effect does
    nothing. *)
Lemma useEffect_idle params st0 :
  get "session_id" params = None \/ get "session_id" params = Some "" ->
  useEffect svc params st0 = st0.
Proof. unfold useEffect. intros [H|H]; rewrite H; reflexivity. Qed.

(** The run of a page whose first [k] replies are pending and whose next
    reply is not. *)
Lemma run_to_reply sid k :
  forall a st,
    timer st = None ->
    (a + k < maxAttempts)%nat ->
    (forall i, (i < k)%nat -> pending (svc sid (sent st + i)%nat) = true) ->
    pending (svc sid (sent st + k)%nat) = false ->
    let st' := run k svc (pollPaymentStatus svc sid a st) in
    paymentStatus st' = outcome (svc sid (sent st + k)%nat) /\
    timer st' = None /\
    sent st' = (sent st + k + 1)%nat.
Proof.
  induction k as [|k IH]; intros a st Ht Ha Hpend Hlast; simpl.
  - rewrite Nat.add_0_r in *.
    destruct (poll_decisive sid a st Ha Hlast) as [H1 [H2 H3]].
    rewrite H1, H2, H3. repeat split; [exact Ht | lia].
  - rewrite poll_pending;
      [| lia | specialize (Hpend 0%nat); rewrite Nat.add_0_r in Hpend;
               apply Hpend; lia ].
    unfold fire at 1. simpl timer. cbv iota. simpl.
    match goal with
    | |- context [run k svc (pollPaymentStatus svc sid ?a' ?st')] =>
        destruct (IH a' st') as [H1 [H2 H3]]
    end; simpl.
    + reflexivity.
    + lia.
    + intros i Hi. replace (S (sent st + i)) with (sent st + S i)%nat by lia.
      apply Hpend. lia.
    + replace (S (sent st + k)) with (sent st + S k)%nat by lia. exact Hlast.
    + simpl in H1, H3.
      replace (S (sent st + k)) with (sent st + S k)%nat in H1 by lia.
      repeat split; [exact H1 | exact H2 | lia].
Qed.

Lemma terminal_cases s :
  terminal s = true -> In s [success; expired; error; timeout].
Proof. destruct s; simpl; intros H; try discriminate; tauto. Qed.

(** A page without a usable session identifier is the initial page. *)
Lemma mount_idle params :
  get "session_id" params = None \/ get "session_id" params = Some "" ->
  mount svc params = initial.
Proof.
  unfold mount, useEffect. intros [H|H]; rewrite H; reflexivity.
Qed.

End PollingFacts.

(** X14. Whatever the session service answers, a run of the effect of the
    page on a state with no callback pending (when the page is mounted, or
    on a later change of location once the chain before it has ended) sends
    at most 5 status queries; what it adds to the log has exactly these
    queries, every one of them about the session of the URL, and every
    callback it sets waits 2000 ms, is for that session and carries an
    attempt number from 1 to 5. *)
Theorem polling_is_bounded
    (svc : Reconciler.SessionService) (params : Reconciler.URLSearchParams)
    (st0 st : Reconciler.State) :
  Reconciler.timer st0 = None ->
  Reconciler.steps svc (Reconciler.useEffect svc params st0) st ->
  (Reconciler.sent st0 <= Reconciler.sent st <= Reconciler.sent st0 + 5)%nat /\
  exists l,
    Reconciler.log st = Reconciler.log st0 ++ l /\
    Reconciler.sent st = (Reconciler.sent st0 + Reconciler.queries l)%nat /\
    forall sid,
      Reconciler.get "session_id" params = Some sid ->
      (forall s, In (Reconciler.GetStatus s) l -> s = sid) /\
      (forall ms s attempts,
          In (Reconciler.SetTimeout ms s attempts) l ->
          ms = 2000 /\ s = sid /\ (1 <= attempts <= 5)%nat).
Proof.
  intros Hquiet Hsteps.
  assert (Hidle : Reconciler.useEffect svc params st0 = st0 ->
    (Reconciler.sent st0 <= Reconciler.sent st <= Reconciler.sent st0 + 5)%nat
    /\ exists l,
      Reconciler.log st = Reconciler.log st0 ++ l /\
      Reconciler.sent st = (Reconciler.sent st0 + Reconciler.queries l)%nat /\
      forall sid,
        Reconciler.get "session_id" params = Some sid ->
        (forall s, In (Reconciler.GetStatus s) l -> s = sid) /\
        (forall ms s attempts,
            In (Reconciler.SetTimeout ms s attempts) l ->
            ms = 2000 /\ s = sid /\ (1 <= attempts <= 5)%nat)).
  { intros E. rewrite E in Hsteps.
    destruct (quiet_is_final svc st0 Hquiet) as [_ [Hstay _]].
    rewrite (Hstay st Hsteps). split; [lia|].
    exists []. rewrite app_nil_r. split; [reflexivity|].
    split; [rewrite queries_nil; lia|].
    intros sid _. split; intros; contradiction. }
  destruct (Reconciler.get "session_id" params) as [sid|] eqn:Hget.
  - destruct (String.eqb_spec sid "") as [E|N].
    + subst sid. apply Hidle. apply useEffect_idle. right. exact Hget.
    + pose proof (steps_chain svc st0 sid _ _
                    (effect_chain svc params sid st0 Hquiet Hget N) Hsteps)
        as [l [Hlog [Hok [Hsent [Hle _]]]]].
      unfold Reconciler.maxAttempts in Hle.
      split; [lia|].
      exists l. split; [exact Hlog|]. split; [exact Hsent|].
      intros sid' Hsid'. injection Hsid' as <-.
      rewrite forallb_forall in Hok. split.
      * intros s Hin. specialize (Hok _ Hin). simpl in Hok.
        apply String.eqb_eq in Hok. exact Hok.
      * intros ms s a Hin. specialize (Hok _ Hin).
        unfold Polling.event_ok in Hok.
        rewrite !andb_true_iff in Hok. destruct Hok as [[[H1 H2] H3] H4].
        apply Z.eqb_eq in H1. apply String.eqb_eq in H2.
        apply Nat.leb_le in H3, H4.
        unfold Reconciler.pollInterval in H1.
        unfold Reconciler.maxAttempts in H4. repeat split; assumption.
  - apply Hidle. apply useEffect_idle. left. exact Hget.
Qed.

Lemma polling_is_bounded_witness :
  (Reconciler.sent
     (Reconciler.run 3 Reconciler.always_open
        (Reconciler.mount Reconciler.always_open Reconciler.return_url))
   <= 0 + 5)%nat.
Proof.
  destruct (polling_is_bounded Reconciler.always_open Reconciler.return_url
              Reconciler.initial
              (Reconciler.run 3 Reconciler.always_open
                 (Reconciler.mount Reconciler.always_open
                    Reconciler.return_url))) as [[_ Hle] _].
  - reflexivity.
  - apply run_steps.
  - exact Hle.
Defined.

(** X15. Whatever the session service answers, the polling chain that a
    run of the effect starts on a state with no callback pending is over
    after at most 5 callbacks: no callback is pending then, at most 5
    queries were sent, and when the URL carried a non-empty session
    identifier the chain has set the status to one of [success],
    [expired], [error], [timeout]. *)
Theorem polling_ends
    (svc : Reconciler.SessionService) (params : Reconciler.URLSearchParams)
    (st0 : Reconciler.State) :
  Reconciler.timer st0 = None ->
  let final := Reconciler.run 5 svc (Reconciler.useEffect svc params st0) in
  Reconciler.timer final = None /\
  (Reconciler.sent final <= Reconciler.sent st0 + 5)%nat /\
  (forall fuel, (5 <= fuel)%nat ->
     Reconciler.run fuel svc (Reconciler.useEffect svc params st0) = final) /\
  (forall sid,
      Reconciler.get "session_id" params = Some sid ->
      sid <> "" ->
      In (Reconciler.paymentStatus final)
         [Reconciler.success; Reconciler.expired; Reconciler.error;
          Reconciler.timeout]).
Proof.
  intros Hquiet final.
  assert (Hq : Reconciler.timer final = None /\
               (Reconciler.sent final <= Reconciler.sent st0 + 5)%nat /\
               forall sid,
                 Reconciler.get "session_id" params = Some sid ->
                 sid <> "" -> Polling.chain st0 sid final).
  { subst final.
    assert (Hidle : Reconciler.useEffect svc params st0 = st0 ->
      Reconciler.timer
        (Reconciler.run 5 svc (Reconciler.useEffect svc params st0)) = None /\
      (Reconciler.sent
         (Reconciler.run 5 svc (Reconciler.useEffect svc params st0))
       <= Reconciler.sent st0 + 5)%nat).
    { intros E. rewrite E.
      destruct (quiet_is_final svc st0 Hquiet) as [_ [_ Hrun]].
      rewrite Hrun. split; [exact Hquiet | lia]. }
    destruct (Reconciler.get "session_id" params) as [sid|] eqn:Hget.
    - destruct (String.eqb_spec sid "") as [E|N].
      + subst sid.
        destruct (Hidle (useEffect_idle svc params st0 (or_intror Hget)))
          as [H1 H2].
        split; [exact H1|]. split; [exact H2|].
        intros sid' H. injection H as <-. congruence.
      + pose proof (effect_chain svc params sid st0 Hquiet Hget N) as Hch.
        destruct (run_quiesces svc st0 sid 5 _ Hch) as [H1 H2].
        * intros Hpending. destruct Hch as [l [_ [_ [Hsent [_ Ht]]]]].
          destruct (Reconciler.timer (Reconciler.useEffect svc params st0));
            [|congruence].
          destruct Ht as [_ [Hone _]]. unfold Reconciler.maxAttempts. lia.
        * split; [exact H1|]. split.
          -- destruct H2 as [l [_ [_ [Hsent [Hle _]]]]].
             unfold Reconciler.maxAttempts in Hle. lia.
          -- intros sid' H _. injection H as <-. exact H2.
    - destruct (Hidle (useEffect_idle svc params st0 (or_introl Hget)))
        as [H1 H2].
      split; [exact H1|]. split; [exact H2|].
      intros sid' H. discriminate H. }
  destruct Hq as [Hnone [Hsent Hchain]].
  destruct (quiet_is_final svc final Hnone) as [_ [_ Hrun]].
  split; [exact Hnone|]. split; [exact Hsent|]. split.
  - intros fuel Hfuel. replace fuel with (5 + (fuel - 5))%nat by lia.
    rewrite run_add. apply Hrun.
  - intros sid Hget Hsid. apply terminal_cases.
    destruct (Hchain sid Hget Hsid) as [l [_ [_ [_ [_ Ht]]]]].
    rewrite Hnone in Ht. exact Ht.
Qed.

Lemma polling_ends_witness :
  In (Reconciler.paymentStatus
        (Reconciler.run 5 (Reconciler.fails_at 2)
           (Reconciler.mount (Reconciler.fails_at 2) Reconciler.return_url)))
     [Reconciler.success; Reconciler.expired; Reconciler.error;
      Reconciler.timeout].
Proof.
  destruct (polling_ends (Reconciler.fails_at 2) Reconciler.return_url
              Reconciler.initial) as [_ [_ [_ Hterm]]].
  - reflexivity.
  - apply (Hterm "cs_test_a1b2c3"); [reflexivity | discriminate].
Defined.

(** X16. The first reply that is not an open, unpaid one decides: when the
    first [k] replies (k < 5) are open and unpaid and the next one is not,
    the page has sent [k + 1] queries and its status is [error] for a
    failure, [success] for a reply saying paid, even one that also says
    expired, and [expired] otherwise; nothing is pending afterwards. *)
Theorem first_decisive_reply_decides
    (svc : Reconciler.SessionService) (params : Reconciler.URLSearchParams)
    (sid : string) (k : nat) :
  Reconciler.get "session_id" params = Some sid ->
  sid <> "" ->
  (k < 5)%nat ->
  (forall i, (i < k)%nat -> Reconciler.pending (svc sid i) = true) ->
  Reconciler.pending (svc sid k) = false ->
  let final := Reconciler.run k svc (Reconciler.mount svc params) in
  Reconciler.paymentStatus final = Polling.outcome (svc sid k) /\
  Reconciler.sent final = (k + 1)%nat /\
  Reconciler.timer final = None /\
  (forall fuel, (k <= fuel)%nat ->
     Reconciler.run fuel svc (Reconciler.mount svc params) = final) /\
  (svc sid k = Reconciler.Failure ->
   Reconciler.paymentStatus final = Reconciler.error) /\
  (forall data,
      svc sid k = Reconciler.Response data ->
      Reconciler.payment_status data = "paid" ->
      Reconciler.paymentStatus final = Reconciler.success) /\
  (forall data,
      svc sid k = Reconciler.Response data ->
      Reconciler.payment_status data <> "paid" ->
      Reconciler.paymentStatus final = Reconciler.expired).
Proof.
  intros Hget Hsid Hk Hp Hlast final.
  assert (H : Reconciler.paymentStatus final = Polling.outcome (svc sid k) /\
              Reconciler.timer final = None /\
              Reconciler.sent final = (k + 1)%nat).
  { subst final. unfold Reconciler.mount, Reconciler.useEffect. rewrite Hget.
    unfold Js.falsy. destruct (String.eqb_spec sid ""); [contradiction|].
    apply (run_to_reply svc sid k 0
             (Reconciler.setSessionId sid Reconciler.initial));
      simpl; try assumption; try reflexivity. }
  destruct H as [Hstatus [Hnone Hsent]].
  split; [exact Hstatus|]. split; [exact Hsent|]. split; [exact Hnone|].
  split; [|split; [|split]].
  - intros fuel Hfuel. replace fuel with (k + (fuel - k))%nat by lia.
    rewrite run_add. fold final. apply quiet_is_final. exact Hnone.
  - intros Hf. rewrite Hstatus, Hf. reflexivity.
  - intros data Hr Hpaid. rewrite Hstatus, Hr. simpl. rewrite Hpaid.
    reflexivity.
  - intros data Hr Hpaid. rewrite Hstatus, Hr. rewrite Hr in Hlast.
    simpl in *.
    destruct (String.eqb_spec (Reconciler.payment_status data) "paid");
      [contradiction|].
    destruct (Reconciler.status data =? "expired");
      [reflexivity | discriminate].
Qed.

Lemma first_decisive_reply_decides_witness :
  let final :=
    Reconciler.run 0 (Polling.paid_at 0)
      (Reconciler.mount (Polling.paid_at 0) Reconciler.return_url) in
  Reconciler.paymentStatus final = Reconciler.success /\
  Reconciler.sent final = 1%nat.
Proof.
  destruct (first_decisive_reply_decides (Polling.paid_at 0)
              Reconciler.return_url "cs_test_a1b2c3" 0)
    as [_ [Hsent [_ [_ [_ [Hpaid _]]]]]].
  - reflexivity.
  - discriminate.
  - lia.
  - intros i Hi. lia.
  - reflexivity.
  - split; [|exact Hsent].
    apply (Hpaid (Reconciler.mkData "complete" "paid")); reflexivity.
Defined.

(** X17. When the URL has no [session_id] or an empty one, the page never
    polls: it stays in the status [checking] for ever, showing "Processing
    Payment..." with a spinner and no action to leave the page. *)
Theorem idle_page_spins_forever
    (svc : Reconciler.SessionService) (params : Reconciler.URLSearchParams)
    (st : Reconciler.State) :
  Reconciler.get "session_id" params = None \/
  Reconciler.get "session_id" params = Some "" ->
  Reconciler.steps svc (Reconciler.mount svc params) st ->
  Reconciler.sent st = 0%nat /\
  Reconciler.paymentStatus st = Reconciler.checking /\
  Reconciler.render (Reconciler.paymentStatus st) = Polling.processing /\
  existsb Reconciler.is_action
    (Reconciler.render (Reconciler.paymentStatus st)) = false.
Proof.
  intros Hidle Hsteps. rewrite (mount_idle svc params Hidle) in Hsteps.
  destruct (quiet_is_final svc Reconciler.initial eq_refl) as [_ [Hstay _]].
  rewrite (Hstay st Hsteps). repeat split.
Qed.

Lemma idle_page_spins_forever_witness :
  Reconciler.render
    (Reconciler.paymentStatus
       (Reconciler.run 5 Reconciler.always_open
          (Reconciler.mount Reconciler.always_open [("session_id", "")])))
  = Polling.processing.
Proof.
  apply (idle_page_spins_forever Reconciler.always_open [("session_id", "")]).
  - right. reflexivity.
  - apply run_steps.
Defined.
